(** * Buildbot: change filters, scheduler core and report generators

    A shallow embedding of
      - [buildbot.reporters.generators.utils.BuildStatusGeneratorMixin]
      - [buildbot.changes.filter.ChangeFilter]
    and of the parts of [buildbot.schedulers.base] that the unit tests in
    [buildbot/test/unit/schedulers/test_base.py] exercise, followed by the
    properties established about them. *)

From Stdlib Require Import ZArith Lia.
From stdpp Require Import base option list sorting strings gmap.

Set Warnings "-register-all".

Local Open Scope string_scope.
Local Open Scope list_scope.
Local Open Scope Z_scope.

(** ** Python values *)

(** The dynamically typed values that flow through the modelled functions:
    [None], booleans, integers, strings, lists and dictionaries, and the
    sentinel object [buildbot.util.NotABranch]. *)
Inductive PyValue : Type :=
| VNone
| VBool (b : bool)
| VInt (z : Z)
| VStr (s : string)
| VList (items : list PyValue)
| VDict (entries : list (string * PyValue))
| VNotABranch.

(** [type(v)], as far as the modelled code looks at it. *)
Inductive PyType : Type :=
  TNone | TBool | TInt | TStr | TList | TDict | TNotABranch.

Definition type_of (v : PyValue) : PyType :=
  match v with
  | VNone => TNone
  | VBool _ => TBool
  | VInt _ => TInt
  | VStr _ => TStr
  | VList _ => TList
  | VDict _ => TDict
  | VNotABranch => TNotABranch
  end.

(** The exceptions the modelled code can raise or let through. *)
Inductive PyExn : Type :=
| AttributeError (name : string)
| KeyError (key : string)
| ValueError (msg : string)
| RuntimeError (msg : string)
| ConfigErrors (msg : string)
| UserError (tag : Z).

(** A call either returns a value or raises. *)
Inductive Result (A : Type) : Type :=
| Ok (a : A)
| Raise (e : PyExn).
Arguments Ok {A} a.
Arguments Raise {A} e.

Definition bind {A B : Type} (r : Result A) (k : A -> Result B) : Result B :=
  match r with
  | Ok a => k a
  | Raise e => Raise e
  end.

Notation "'let*' x ':=' r 'in' k" := (bind r (fun x => k))
  (at level 10, x name, r at level 100, k at level 200).

Definition raises {A : Type} (r : Result A) : bool :=
  match r with Ok _ => false | Raise _ => true end.

(** ** buildbot.reporters.generators.utils *)

Module results.

(** Modelled from the spec: buildbot.process.results is not among the sources;
    result code of a build that passed. *)
Definition SUCCESS : Z := 0.

(** Modelled from the spec: buildbot.process.results is not among the sources;
    result code of a build with warnings. *)
Definition WARNINGS : Z := 1.

(** Modelled from the spec: buildbot.process.results is not among the sources;
    result code of a failed build. *)
Definition FAILURE : Z := 2.

(** Modelled from the spec: buildbot.process.results is not among the sources;
    result code of a skipped build. *)
Definition SKIPPED : Z := 3.

(** Modelled from the spec: buildbot.process.results is not among the sources;
    result code of a build that met an exception. *)
Definition EXCEPTION : Z := 4.

(** Modelled from the spec: buildbot.process.results is not among the sources;
    result code of a build to be retried. *)
Definition RETRY : Z := 5.

(** Modelled from the spec: buildbot.process.results is not among the sources;
    result code of a cancelled build. *)
Definition CANCELLED : Z := 6.
End results.

Module utils.
Import results.

(** The part of a build dictionary that the generators read:
    [build['results']] and [build['prev_build']] ([None] or a build). *)
Inductive Build : Type :=
  mkBuild { results : Z; prev_build : option Build }.

(** A mode argument is a single string or a sequence of strings. *)
Inductive ModeArg : Type :=
| ModeStr (m : string)
| ModeSeq (ms : list string).

Definition _compute_shortcut_modes (mode : ModeArg) : list string :=
  match mode with
  | ModeStr m =>
      if bool_decide (m = "all")
      then ["failing"; "passing"; "warnings"; "exception"; "cancelled"]
      else if bool_decide (m = "warnings")
      then ["failing"; "warnings"]
      else [m]
  | ModeSeq ms => ms
  end.

(** [self]: of the attributes set by [__init__], the merge and
    message-need functions read [mode] only. *)
Record BuildStatusGeneratorMixin : Type :=
  { mode : list string }.

Definition __init__ (mode : ModeArg) : BuildStatusGeneratorMixin :=
  {| mode := _compute_shortcut_modes mode |}.

(** [m in self.mode] *)
Definition in_mode (m : string) (self : BuildStatusGeneratorMixin) : bool :=
  bool_decide (m ∈ mode self).

(** [prev and prev['results'] != r]: a build dictionary is truthy, [None]
    is not. *)
Definition prev_differs (prev : option Build) (r : Z) : bool :=
  match prev with
  | Some p => negb (results p =? r)
  | None => false
  end.

Definition is_message_needed_by_results
    (self : BuildStatusGeneratorMixin) (build : Build) : bool :=
  let results := results build in
  if in_mode "change" self && prev_differs (prev_build build) results
  then true
  else if in_mode "failing" self && (results =? FAILURE) then true
  else if in_mode "passing" self && (results =? SUCCESS) then true
  else if in_mode "problem" self && (results =? FAILURE)
          && prev_differs (prev_build build) FAILURE
  then true
  else if in_mode "warnings" self && (results =? WARNINGS) then true
  else if in_mode "exception" self && (results =? EXCEPTION) then true
  else if in_mode "cancelled" self && (results =? CANCELLED) then true
  else false.

(** What [log.msg] is called with. *)
Inductive LogMsg : Type :=
| IncompatibleBodyTypes
    (self : BuildStatusGeneratorMixin) (body_type new_body_type : PyType).

(** The merge functions return their tuple; the second component of the
    model is the list of messages the call hands to [log.msg]. *)
Definition Logged (A : Type) : Type := (A * list LogMsg)%type.

Definition _merge_body (self : BuildStatusGeneratorMixin)
    (body new_body : PyValue) : Logged (PyValue * bool) :=
  match body, new_body with
  | VNone, _ => ((new_body, true), [])
  | _, VNone => ((body, true), [])
  | VStr s, VStr t => ((VStr (s +:+ t), true), [])
  | VList l, VList k => ((VList (l ++ k), true), [])
  | _, _ =>
      ((body, false),
       [IncompatibleBodyTypes self (type_of body) (type_of new_body)])
  end.

(** A generator whose only configured mode is [m]. *)
Definition only_mode (m : string) (self : BuildStatusGeneratorMixin) : Prop :=
  ∀ m', m' ∈ mode self → m' = m.

(** The same generator with the mode "problem" taken out. *)
Definition without_problem (self : BuildStatusGeneratorMixin)
    : BuildStatusGeneratorMixin :=
  {| mode := List.filter (fun m => negb (bool_decide (m = "problem")))
               (mode self) |}.

(** The condition of the mode "problem": the build failed and there is a
    previous build that did not. *)
Definition new_failure (build : Build) : Prop :=
  results build = FAILURE ∧
  ∃ p, prev_build build = Some p ∧ results p ≠ FAILURE.

(** *** The other attributes of a generator *)

(** The value of a parameter that [check] wants to be a list or [None]:
    [None], a list of names, or a value of another type. *)
Inductive ListParam : Type :=
| PNone
| PList (items : list string)
| PInvalid (v : PyValue).

(** [self], with the attributes that [__init__] stores next to [mode];
    [subject] is a string or [None]. *)
Record Generator : Type :=
  { generator : BuildStatusGeneratorMixin;
    tags : ListParam;
    builders : ListParam;
    schedulers : ListParam;
    branches : ListParam;
    subject : option string;
    add_patch : bool }.

Definition possible_modes : list string :=
  ["change"; "failing"; "passing"; "problem"; "warnings"; "exception";
   "cancelled"].

(** What [config.error] is called with.  buildbot.config is not among the
    sources: an error is recorded there or raised at once, and in both cases
    a configuration without reported errors is one for which [check] calls
    [config.error] not at all. *)
Inductive ConfigError : Type :=
| ModeAllInIterator
| ModeNotValid (m : string)
| NewlinesInSubject
| MustBeListOrNone (name : string)
| BuildersAndTags.

(** [for m in self._compute_shortcut_modes(mode): if m not in
    self.possible_modes: ...], with the calls of [config.error] in order. *)
Definition _verify_build_generator_mode (mode : ModeArg) : list ConfigError :=
  flat_map
    (fun m =>
       if bool_decide (m ∈ possible_modes) then []
       else if bool_decide (m = "all") then [ModeAllInIterator]
       else [ModeNotValid m])
    (_compute_shortcut_modes mode).

Definition _verify_list_or_none_param (name : string) (param : ListParam)
    : list ConfigError :=
  match param with
  | PInvalid _ => [MustBeListOrNone name]
  | _ => []
  end.

Definition newline : Ascii.ascii := Ascii.ascii_of_nat 10.

(** ['\n' in s] *)
Fixpoint has_newline (s : string) : bool :=
  match s with
  | EmptyString => false
  | String c rest => Ascii.eqb c newline || has_newline rest
  end.

Definition is_not_None (param : ListParam) : bool :=
  match param with PNone => false | _ => true end.

Definition check (self : Generator) : list ConfigError :=
  _verify_build_generator_mode (ModeSeq (mode (generator self)))
  ++ match subject self with
     | Some s => if has_newline s then [NewlinesInSubject] else []
     | None => []
     end
  ++ _verify_list_or_none_param "tags" (tags self)
  ++ _verify_list_or_none_param "builders" (builders self)
  ++ _verify_list_or_none_param "schedulers" (schedulers self)
  ++ _verify_list_or_none_param "branches" (branches self)
  ++ (if is_not_None (builders self) && is_not_None (tags self)
      then [BuildersAndTags] else []).





(** *** Merging the messages of several builds *)

(** What [log.msg] is called with by [_merge_msgtype]. *)
Inductive MsgtypeWarning : Type :=
| IncompatibleMessageTypes
    (self : BuildStatusGeneratorMixin) (msgtype new_msgtype : string).

(** A message type is a string or [None]. *)
Definition _merge_msgtype (self : BuildStatusGeneratorMixin)
    (msgtype new_msgtype : option string)
    : (option string * bool) * list MsgtypeWarning :=
  match new_msgtype, msgtype with
  | None, _ => ((msgtype, false), [])
  | Some _, None => ((new_msgtype, true), [])
  | Some new, Some old =>
      if bool_decide (old = new) then ((msgtype, true), [])
      else ((msgtype, false), [IncompatibleMessageTypes self old new])
  end.

Definition _merge_subject (subject new_subject : option string)
    : option string :=
  match subject, new_subject with
  | None, Some _ => new_subject
  | _, _ => subject
  end.

(** [for vkey, vvalue in new_value.items(): if vkey not in value:
    value[vkey] = vvalue] *)
Definition fill_in {V : Type} (value new_value : gmap string V)
    : gmap string V :=
  map_fold
    (fun vkey vvalue value =>
       match value !! vkey with
       | Some _ => value
       | None => <[vkey := vvalue]> value
       end)
    value new_value.

(** The extra information is a dictionary of dictionaries, or [None].  The
    loop changes [info] in place; the model returns the dictionary it has
    become. *)
Definition _merge_extra_info
    (info new_info : option (gmap string (gmap string PyValue)))
    : option (gmap string (gmap string PyValue)) * bool :=
  match info, new_info with
  | None, _ => (new_info, true)
  | _, None => (info, true)
  | Some info, Some new_info =>
      (Some
         (map_fold
            (fun key new_value info =>
               match info !! key with
               | None => <[key := new_value]> info
               | Some value => <[key := fill_in value new_value]> info
               end)
            info new_info),
       true)
  end.

(** *** Patches and logs of a build *)

(** [ss['patch']] when ['patch' in ss and ss['patch'] is not None]. *)
Definition patch_of (ss : gmap string PyValue) : option PyValue :=
  match ss !! "patch" with
  | Some VNone => None
  | Some patch => Some patch
  | None => None
  end.

(** [build['buildset']['sourcestamps']] is passed as [ss_list]. *)
Definition _get_patches_for_build (self : Generator)
    (ss_list : list (gmap string PyValue)) : list PyValue :=
  if negb (add_patch self) then [] else omap patch_of ss_list.

(** A step dictionary, with its ['logs'] when it has that key. *)
Record Step : Type :=
  { logs : option (list (gmap string PyValue)) }.

(** ['content' in l] *)
Definition has_content (l : gmap string PyValue) : bool :=
  match l !! "content" with Some _ => true | None => false end.

(** [for l in step['logs']: if 'content' in l: all_logs.append(l)] *)
Fixpoint append_logs (ls : list (gmap string PyValue))
    (all_logs : list (gmap string PyValue)) : list (gmap string PyValue) :=
  match ls with
  | [] => all_logs
  | l :: rest =>
      append_logs rest (if has_content l then all_logs ++ [l] else all_logs)
  end.

(** [for step in build['steps']: if 'logs' not in step: continue; ...] *)
Fixpoint append_step_logs (steps : list Step)
    (all_logs : list (gmap string PyValue)) : list (gmap string PyValue) :=
  match steps with
  | [] => all_logs
  | step :: rest =>
      append_step_logs rest
        match logs step with
        | None => all_logs
        | Some ls => append_logs ls all_logs
        end
  end.

(** [build['steps']] when the build has that key. *)
Definition _get_logs_for_build (steps : option (list Step))
    : list (gmap string PyValue) :=
  match steps with
  | None => []
  | Some steps => append_step_logs steps []
  end.

(** *** Notions used to state what the merges do *)

(** A body that is not [None]. *)
Definition not_None (v : PyValue) : option PyValue :=
  match v with VNone => None | _ => Some v end.

Definition as_str (v : PyValue) : option string :=
  match v with VStr s => Some s | _ => None end.

Definition as_list (v : PyValue) : option (list PyValue) :=
  match v with VList items => Some items | _ => None end.

(** The strings of a list, one after the other. *)
Definition join (parts : list string) : string :=
  foldr String.append "" parts.

(** [info[key][vkey]], when both keys are there. *)
Definition lookup2 {V : Type} (info : gmap string (gmap string V))
    (key vkey : string) : option V :=
  match info !! key with
  | Some value => value !! vkey
  | None => None
  end.

End utils.

(** ** buildbot.changes.filter *)

(** A change object, as [filter_change] sees it: named attributes, read
    with [change.name] or [getattr(change, name, default)], and the
    property mapping behind [change.properties], name to (value, source). *)
Record Change : Type :=
  { attrs : gmap string PyValue;
    properties : gmap string (PyValue * string) }.

(** [change.name]: raises [AttributeError] when the attribute is missing. *)
Definition attr (change : Change) (name : string) : Result PyValue :=
  match attrs change !! name with
  | Some v => Ok v
  | None => Raise (AttributeError name)
  end.

(** [getattr(change, name, default)] *)
Definition getattr (change : Change) (name : string) (default : PyValue)
    : PyValue :=
  match attrs change !! name with
  | Some v => v
  | None => default
  end.

(** Modelled from the spec: buildbot.process.properties is not among the
    sources.  [props.getProperty(name, default)] returns the value of the
    property, without its source, and the default when the property is not
    set. *)
Definition getProperty (props : gmap string (PyValue * string))
    (name : string) (default : PyValue) : PyValue :=
  match props !! name with
  | Some (v, _) => v
  | None => default
  end.

Module ssfilter.

(** A filter object of buildbot.util.ssfilter, seen through the two members
    that [filter_change] uses: the attribute or property name [prop] and the
    method [is_matched]. *)
Record Filter : Type :=
  { prop : string;
    is_matched : PyValue -> Result bool }.

(** The constructors that filter.py imports from buildbot.util.ssfilter.
    That module is not among the sources, so [ChangeFilter] is modelled
    over any implementation with these signatures. *)
Class Ssfilter : Type :=
  { _create_filters :
      PyValue -> PyValue -> PyValue -> PyValue -> string ->
      Result (list Filter);
    _create_branch_filters :
      PyValue -> PyValue -> PyValue -> PyValue -> string ->
      Result (list Filter);
    _create_property_filters :
      PyValue -> PyValue -> PyValue -> PyValue -> string ->
      Result (list Filter) }.

End ssfilter.

Module filter.
Import ssfilter.

(** A one-argument predicate supplied by the user; it may raise. *)
Definition Callable (A : Type) : Type := A -> Result bool.

(** The five filtered fields of a change. *)
Inductive Field : Type := Project | Repository | Branch | Category | Codebase.

Definition field_name (f : Field) : string :=
  match f with
  | Project => "project"
  | Repository => "repository"
  | Branch => "branch"
  | Category => "category"
  | Codebase => "codebase"
  end.

(** The five keyword arguments of [__init__] that belong to one field:
    for the field [project] these are [project], [project_not_eq],
    [project_re], [project_not_re] and [project_fn]. *)
Record FieldArgs : Type :=
  { f_eq : PyValue;
    f_not_eq : PyValue;
    f_re : PyValue;
    f_not_re : PyValue;
    f_fn : option (Callable PyValue) }.

(** The keyword arguments of [ChangeFilter.__init__]. *)
Record Args : Type :=
  { arg_filter_fn : option (Callable Change);
    project : FieldArgs;
    repository : FieldArgs;
    branch : FieldArgs;
    category : FieldArgs;
    codebase : FieldArgs;
    property_eq : PyValue;
    property_not_eq : PyValue;
    property_re : PyValue;
    property_not_re : PyValue }.

(** The defaults of the signature: [None] everywhere, except [branch] and
    [branch_not_eq], which default to the sentinel [NotABranch]. *)
Definition unset : FieldArgs :=
  {| f_eq := VNone; f_not_eq := VNone; f_re := VNone; f_not_re := VNone;
     f_fn := None |}.

Definition unset_branch : FieldArgs :=
  {| f_eq := VNotABranch; f_not_eq := VNotABranch;
     f_re := VNone; f_not_re := VNone; f_fn := None |}.

Definition defaults : Args :=
  {| arg_filter_fn := None;
     project := unset;
     repository := unset;
     branch := unset_branch;
     category := unset;
     codebase := unset;
     property_eq := VNone;
     property_not_eq := VNone;
     property_re := VNone;
     property_not_re := VNone |}.

Definition field_args (f : Field) (a : Args) : FieldArgs :=
  match f with
  | Project => project a
  | Repository => repository a
  | Branch => branch a
  | Category => category a
  | Codebase => codebase a
  end.

(** The attributes of a constructed filter ([compare_attrs]). *)
Record ChangeFilter : Type :=
  { filter_fn : option (Callable Change);
    filters : list Filter;
    property_filters : list Filter;
    project_fn : option (Callable PyValue);
    repository_fn : option (Callable PyValue);
    branch_fn : option (Callable PyValue);
    category_fn : option (Callable PyValue);
    codebase_fn : option (Callable PyValue) }.

Definition field_fn (f : Field) (self : ChangeFilter)
    : option (Callable PyValue) :=
  match f with
  | Project => project_fn self
  | Repository => repository_fn self
  | Branch => branch_fn self
  | Category => category_fn self
  | Codebase => codebase_fn self
  end.

Section WithSsfilter.
Context `{Ssfilter}.

(** [self.filters = _create_filters(...)], then four times
    [self.filters += ...], then [self.property_filters = ...]; an exception
    of a helper leaves [__init__]. *)
Definition __init__ (a : Args) : Result ChangeFilter :=
  let* fs := _create_filters
         (f_eq (project a)) (f_not_eq (project a))
         (f_re (project a)) (f_not_re (project a)) "project" in
  let* fs_repository := _create_filters
         (f_eq (repository a)) (f_not_eq (repository a))
         (f_re (repository a)) (f_not_re (repository a)) "repository" in
  let* fs_branch := _create_branch_filters
         (f_eq (branch a)) (f_not_eq (branch a))
         (f_re (branch a)) (f_not_re (branch a)) "branch" in
  let* fs_category := _create_filters
         (f_eq (category a)) (f_not_eq (category a))
         (f_re (category a)) (f_not_re (category a)) "category" in
  let* fs_codebase := _create_filters
         (f_eq (codebase a)) (f_not_eq (codebase a))
         (f_re (codebase a)) (f_not_re (codebase a)) "codebase" in
  let* pfs := _create_property_filters
         (property_eq a) (property_not_eq a)
         (property_re a) (property_not_re a) "property" in
  Ok {| filter_fn := arg_filter_fn a;
          filters := fs ++ fs_repository ++ fs_branch ++ fs_category
                        ++ fs_codebase;
          property_filters := pfs;
          project_fn := f_fn (project a);
          repository_fn := f_fn (repository a);
          branch_fn := f_fn (branch a);
          category_fn := f_fn (category a);
          codebase_fn := f_fn (codebase a) |}.

End WithSsfilter.

(** [fn is not None and not fn(x)], where evaluating the argument [x] may
    itself raise; the argument is not evaluated when [fn] is [None]. *)
Definition rejects {A : Type} (fn : option (Callable A)) (x : Result A)
    : Result bool :=
  match fn with
  | None => Ok false
  | Some f => let* a := x in let* b := f a in Ok (negb b)
  end.

(** [for filter in fs: value = get(filter.prop); if not
    filter.is_matched(value): return False]: [Ok false] stands for the early
    return, [Ok true] for falling out of the loop. *)
Fixpoint all_matched (get : string -> PyValue) (fs : list Filter)
    : Result bool :=
  match fs with
  | [] => Ok true
  | f :: rest =>
      let* m := is_matched f (get (prop f)) in
      if m then all_matched get rest else Ok false
  end.

Definition filter_change (self : ChangeFilter) (change : Change)
    : Result bool :=
  let* r := rejects (filter_fn self) (Ok change) in
  if r then Ok false else
  let* r := rejects (project_fn self) (attr change "project") in
  if r then Ok false else
  let* r := rejects (codebase_fn self) (attr change "codebase") in
  if r then Ok false else
  let* r := rejects (repository_fn self) (attr change "repository") in
  if r then Ok false else
  let* r := rejects (category_fn self) (attr change "category") in
  if r then Ok false else
  let* r := rejects (branch_fn self) (attr change "branch") in
  if r then Ok false else
  let* m := all_matched (fun p => getattr change p (VStr "")) (filters self) in
  if negb m then Ok false else
  let* m := all_matched
        (fun p => getProperty (properties change) p (VStr ""))
        (property_filters self) in
  if negb m then Ok false else
  Ok true.

(** *** The sub-filters of a filter, as the specification lists them *)

Inductive SubFilter : Type :=
| ByFilterFn
| ByFieldFn (f : Field)
| ByFieldFilter (i : nat)
| ByPropertyFilter (i : nat).

(** The outcome of one optional callable on its argument: nothing when the
    callable is not configured. *)
Definition fn_outcome {A : Type} (who : SubFilter)
    (fn : option (Callable A)) (x : Result A)
    : list (SubFilter * Result bool) :=
  match fn with
  | None => []
  | Some f => [(who, let* a := x in f a)]
  end.

(** Every configured sub-filter with the outcome of evaluating it on the
    change, in the order: generic filter function, project, codebase,
    repository, category, branch, all field filters, all property
    filters. *)
Definition sub_filters (self : ChangeFilter) (change : Change)
    : list (SubFilter * Result bool) :=
  fn_outcome ByFilterFn (filter_fn self) (Ok change)
  ++ fn_outcome (ByFieldFn Project) (project_fn self) (attr change "project")
  ++ fn_outcome (ByFieldFn Codebase) (codebase_fn self)
       (attr change "codebase")
  ++ fn_outcome (ByFieldFn Repository) (repository_fn self)
       (attr change "repository")
  ++ fn_outcome (ByFieldFn Category) (category_fn self)
       (attr change "category")
  ++ fn_outcome (ByFieldFn Branch) (branch_fn self) (attr change "branch")
  ++ imap (fun i (f : Filter) =>
             (ByFieldFilter i,
              is_matched f (getattr change (prop f) (VStr ""))))
       (filters self)
  ++ imap (fun i (f : Filter) =>
             (ByPropertyFilter i,
              is_matched f (getProperty (properties change) (prop f)
                              (VStr ""))))
       (property_filters self).

(** Evaluation in list order that stops at the first sub-filter that does
    not pass: its [Ok false] becomes the answer, its exception leaves. *)
Fixpoint first_failure (outcomes : list (SubFilter * Result bool))
    : Result bool :=
  match outcomes with
  | [] => Ok true
  | (_, r) :: rest => let* b := r in if b then first_failure rest else Ok false
  end.

Definition passes (o : SubFilter * Result bool) : Prop := o.2 = Ok true.
Definition fails (o : SubFilter * Result bool) : Prop := o.2 = Ok false.
Definition returns (o : SubFilter * Result bool) : Prop := raises o.2 = false.

(** *** Arguments and changes that differ in one place *)

Definition set_field (f : Field) (fa : FieldArgs) (a : Args) : Args :=
  {| arg_filter_fn := arg_filter_fn a;
     project := match f with Project => fa | _ => project a end;
     repository := match f with Repository => fa | _ => repository a end;
     branch := match f with Branch => fa | _ => branch a end;
     category := match f with Category => fa | _ => category a end;
     codebase := match f with Codebase => fa | _ => codebase a end;
     property_eq := property_eq a;
     property_not_eq := property_not_eq a;
     property_re := property_re a;
     property_not_re := property_not_re a |}.

(** The arguments of a field with its callable left out. *)
Definition clear_fn (fa : FieldArgs) : FieldArgs :=
  {| f_eq := f_eq fa; f_not_eq := f_not_eq fa; f_re := f_re fa;
     f_not_re := f_not_re fa; f_fn := None |}.

Definition without_fns (a : Args) : Args :=
  {| arg_filter_fn := arg_filter_fn a;
     project := clear_fn (project a);
     repository := clear_fn (repository a);
     branch := clear_fn (branch a);
     category := clear_fn (category a);
     codebase := clear_fn (codebase a);
     property_eq := property_eq a;
     property_not_eq := property_not_eq a;
     property_re := property_re a;
     property_not_re := property_not_re a |}.

(** A field given both an exact value and a callable. *)
Definition value_and_fn (value : string) (f : Callable PyValue) : FieldArgs :=
  {| f_eq := VStr value; f_not_eq := VNone; f_re := VNone; f_not_re := VNone;
     f_fn := Some f |}.

Definition branch_value_and_fn (value : string) (f : Callable PyValue)
    : FieldArgs :=
  {| f_eq := VStr value; f_not_eq := VNotABranch; f_re := VNone;
     f_not_re := VNone; f_fn := Some f |}.

(** Whether the arguments give a field a value-based filter, and whether
    they give it both a value-based filter and a callable. *)
Definition is_unset (f : Field) (v : PyValue) : Prop :=
  match f with
  | Branch => v = VNotABranch
  | _ => v = VNone
  end.

Definition has_value_filter (f : Field) (a : Args) : Prop :=
  ¬ is_unset f (f_eq (field_args f a))
  ∨ ¬ is_unset f (f_not_eq (field_args f a))
  ∨ f_re (field_args f a) ≠ VNone
  ∨ f_not_re (field_args f a) ≠ VNone.

Definition has_both (f : Field) (a : Args) : Prop :=
  has_value_filter f a ∧ is_Some (f_fn (field_args f a)).

Definition set_attr (name : string) (v : PyValue) (change : Change) : Change :=
  {| attrs := <[name := v]> (attrs change);
     properties := properties change |}.

Definition set_property (name : string) (v : PyValue) (source : string)
    (change : Change) : Change :=
  {| attrs := attrs change;
     properties := <[name := (v, source)]> (properties change) |}.

(** *** The other methods of ChangeFilter *)

(** The truth value of an argument: [None], the empty string, the empty
    list, the empty dictionary, zero and [False] are false. *)
Definition truthy (v : PyValue) : bool :=
  match v with
  | VNone => false
  | VBool b => b
  | VInt z => negb (z =? 0)
  | VStr s => negb (bool_decide (s = ""))
  | VList items => match items with [] => false | _ => true end
  | VDict entries => match entries with [] => false | _ => true end
  | VNotABranch => true
  end.

(** [branch is not NotABranch] *)
Definition is_a_branch (v : PyValue) : bool :=
  match v with VNotABranch => false | _ => true end.

(** [categories is not None] *)
Definition is_given (v : PyValue) : bool :=
  match v with VNone => false | _ => true end.

(** [cfargs]: the [branch] argument when it is not the sentinel, the
    [category] argument when [categories] is true; every other argument of
    the constructor keeps its default. *)
Definition cfargs (branch_arg categories : PyValue) : Args :=
  {| arg_filter_fn := None;
     project := unset;
     repository := unset;
     branch :=
       {| f_eq := if is_a_branch branch_arg then branch_arg else VNotABranch;
          f_not_eq := VNotABranch; f_re := VNone; f_not_re := VNone;
          f_fn := None |};
     category :=
       {| f_eq := if truthy categories then categories else VNone;
          f_not_eq := VNone; f_re := VNone; f_not_re := VNone;
          f_fn := None |};
     codebase := unset;
     property_eq := VNone;
     property_not_eq := VNone;
     property_re := VNone;
     property_not_re := VNone |}.

Section FromSchedulerConstructorArgs.
Context `{Ssfilter}.

(** [change_filter] is a filter object, which is true, or [None]. *)
Definition fromSchedulerConstructorArgs
    (change_filter : option ChangeFilter) (branch_arg categories : PyValue)
    : Result (option ChangeFilter) :=
  match change_filter with
  | Some cf =>
      if is_a_branch branch_arg || is_given categories
      then Raise (RuntimeError
                    "cannot specify both change_filter and branch or categories")
      else Ok (Some cf)
  | None =>
      if is_a_branch branch_arg || truthy categories
      then let* cf := __init__ (cfargs branch_arg categories) in Ok (Some cf)
      else Ok None
  end.

End FromSchedulerConstructorArgs.

Section Repr.
(** [fn.__name__] of a callable and [filter.describe()] of a filter object:
    neither is part of the sources. *)
Variable name_of_filter_fn : Callable Change -> string.
Variable name_of_fn : Callable PyValue -> string.
Variable describe : Filter -> string.

(** [[f'{fn.__name__}(field)'] if fn is not None else []] *)
Definition repr_fn (fn : option (Callable PyValue)) (field : string)
    : list string :=
  match fn with
  | Some f => [name_of_fn f +:+ "(" +:+ field +:+ ")"]
  | None => []
  end.

Definition _get_repr_filters (self : ChangeFilter) : list string :=
  match filter_fn self with
  | Some f => [name_of_filter_fn f +:+ "()"]
  | None => []
  end
  ++ repr_fn (project_fn self) "project"
  ++ repr_fn (codebase_fn self) "codebase"
  ++ repr_fn (repository_fn self) "repository"
  ++ repr_fn (category_fn self) "category"
  ++ repr_fn (branch_fn self) "branch"
  ++ map describe (filters self)
  ++ map describe (property_filters self).

(** What an entry of the repr says of a sub-filter: the name of its
    callable with the field it is given, or the description of its filter
    object. *)
Definition describes (self : ChangeFilter) (text : string)
    (outcome : SubFilter * Result bool) : Prop :=
  match outcome.1 with
  | ByFilterFn =>
      ∃ f, filter_fn self = Some f ∧ text = name_of_filter_fn f +:+ "()"
  | ByFieldFn fld =>
      ∃ f, field_fn fld self = Some f
           ∧ text = name_of_fn f +:+ "(" +:+ field_name fld +:+ ")"
  | ByFieldFilter i => ∃ f, filters self !! i = Some f ∧ text = describe f
  | ByPropertyFilter i =>
      ∃ f, property_filters self !! i = Some f ∧ text = describe f
  end.

End Repr.

End filter.
(** ** buildbot.reporters.message *)

Module message.
Import results.

Section WithStatusToString.
(** [statusToString] of buildbot.process.results, which is not among the
    sources. *)
Variable statusToString : Z -> string.

(** [previous_results is not None and previous_results != r] *)
Definition differs_from (previous_results : option Z) (r : Z) : bool :=
  match previous_results with
  | Some p => negb (p =? r)
  | None => false
  end.

Definition get_detected_status_text (mode : list string) (results : Z)
    (previous_results : option Z) : string :=
  if results =? FAILURE then
    if (bool_decide ("change" ∈ mode) || bool_decide ("problem" ∈ mode))
       && differs_from previous_results FAILURE
    then "new failure"
    else "failed build"
  else if results =? WARNINGS then "problem in the build"
  else if results =? SUCCESS then
    if bool_decide ("change" ∈ mode) && differs_from previous_results results
    then "restored build"
    else "passing build"
  else if results =? EXCEPTION then "build exception"
  else statusToString results +:+ " build".

(** The entry [previous_results] of [create_context_for_build]: the result
    of [build['prev_build']] when the build has that key and it is not
    None. *)
Definition previous_results (build : utils.Build) : option Z :=
  match utils.prev_build build with
  | Some prev => Some (utils.results prev)
  | None => None
  end.


End WithStatusToString.

(** What [get_message_source_stamp_text] reads of a sourcestamp: its
    branch and its revision, each a string or None, its patch, None or a
    patch, and its codebase, a string. *)
Record StampInfo : Type :=
  { ss_branch : option string;
    ss_revision : option string;
    ss_patch : option PyValue;
    ss_codebase : string }.

(** [if s:] for a string or None. *)
Definition nonempty (s : option string) : option string :=
  match s with
  | Some "" => None
  | other => other
  end.

Definition line_feed : string := String (Ascii.ascii_of_nat 10) "".

(** What one round of the loop appends to [text]. *)
Definition source_stamp_line (ss : StampInfo) : string :=
  let source := "" in
  let source :=
    match nonempty (ss_branch ss) with
    | Some b => source +:+ "[branch " +:+ b +:+ "] "
    | None => source
    end in
  let source :=
    match nonempty (ss_revision ss) with
    | Some revision => source +:+ revision
    | None => source +:+ "HEAD"
    end in
  let source :=
    match ss_patch ss with
    | Some _ => source +:+ " (plus patch)"
    | None => source
    end in
  let discriminator :=
    match nonempty (Some (ss_codebase ss)) with
    | Some codebase => " '" +:+ codebase +:+ "'"
    | None => ""
    end in
  "Build Source Stamp" +:+ discriminator +:+ ": " +:+ source +:+ line_feed.

Definition get_message_source_stamp_text (source_stamps : list StampInfo)
    : string :=
  foldl (fun text ss => text +:+ source_stamp_line ss) "" source_stamps.

End message.


(** ** buildbot.util.ssfilter, from its description *)

Module ssfilter_model.
Import ssfilter.

Section WithRegex.
(** [re_match pattern s]: whether the regular expression matches the
    string; the regular-expression engine is outside the repository. *)
Variable re_match : string -> string -> bool.

(** Modelled from the spec: buildbot.util.ssfilter is missing from the
    sources.  One acceptable value of a filter spec: a string, or [None] where
    the spec is a branch spec; any other type is malformed and refused with a
    configuration error. *)
Definition extract_filter_value (allow_none : bool) (filter_name : string)
    (v : PyValue) : Result (option string) :=
  match v with
  | VStr s => Ok (Some s)
  | VNone =>
      if allow_none then Ok None else Raise (ConfigErrors filter_name)
  | _ => Raise (ConfigErrors filter_name)
  end.

(** Modelled from the spec: buildbot.util.ssfilter is missing from the
    sources.  The acceptable values of a spec that is a list. *)
Fixpoint extract_each (allow_none : bool) (filter_name : string)
    (items : list PyValue) : Result (list (option string)) :=
  match items with
  | [] => Ok []
  | v :: rest =>
      let* x := extract_filter_value allow_none filter_name v in
      let* xs := extract_each allow_none filter_name rest in
      Ok (x :: xs)
  end.

(** Modelled from the spec: buildbot.util.ssfilter is missing from the
    sources.  A filter spec is an exact value or a list of such values. *)
Definition extract_filter_values (allow_none : bool) (filter_name : string)
    (values : PyValue) : Result (list (option string)) :=
  match values with
  | VList items => extract_each allow_none filter_name items
  | v =>
      let* x := extract_filter_value allow_none filter_name v in Ok [x]
  end.

(** Modelled from the spec: buildbot.util.ssfilter is missing from the
    sources.  [value == x] for an acceptable value [x], a string or [None]. *)
Definition value_is (value : PyValue) (x : option string) : bool :=
  match value, x with
  | VStr s, Some t => bool_decide (s = t)
  | VNone, None => true
  | _, _ => false
  end.

(** Modelled from the spec: buildbot.util.ssfilter is missing from the
    sources.  The filter that passes the values of its list. *)
Definition exact_match (p : string) (values : list (option string))
    : Filter :=
  {| prop := p;
     is_matched := fun value => Ok (existsb (value_is value) values) |}.

(** Modelled from the spec: buildbot.util.ssfilter is missing from the
    sources.  The not-equal negation: the filter that passes the values
    outside its list. *)
Definition exact_not_match (p : string) (values : list (option string))
    : Filter :=
  {| prop := p;
     is_matched := fun value => Ok (negb (existsb (value_is value) values)) |}.

(** Modelled from the spec: buildbot.util.ssfilter is missing from the
    sources.  A regex matches strings only. *)
Definition value_matches (pattern : string) (value : PyValue) : bool :=
  match value with
  | VStr s => re_match pattern s
  | _ => false
  end.

(** Modelled from the spec: buildbot.util.ssfilter is missing from the
    sources.  The filter that passes the values its regex matches. *)
Definition regex_match (p : string) (pattern : string) : Filter :=
  {| prop := p;
     is_matched := fun value => Ok (value_matches pattern value) |}.

(** Modelled from the spec: buildbot.util.ssfilter is missing from the
    sources.  The regex negation. *)
Definition regex_not_match (p : string) (pattern : string) : Filter :=
  {| prop := p;
     is_matched := fun value => Ok (negb (value_matches pattern value)) |}.

(** Modelled from the spec: buildbot.util.ssfilter is missing from the
    sources.  No filter for an argument left at its default, else one filter
    on the values of the spec. *)
Definition values_filter (allow_none : bool)
    (make : string -> list (option string) -> Filter)
    (is_unset : PyValue -> bool) (spec : PyValue) (p : string)
    : Result (list Filter) :=
  if is_unset spec then Ok []
  else
    let* values := extract_filter_values allow_none p spec in
    Ok [make p values].

(** Modelled from the spec: buildbot.util.ssfilter is missing from the
    sources.  No filter for [None], one filter for a pattern, a configuration
    error for another type. *)
Definition pattern_filter (make : string -> string -> Filter)
    (spec : PyValue) (p : string) : Result (list Filter) :=
  match spec with
  | VNone => Ok []
  | VStr pattern => Ok [make p pattern]
  | _ => Raise (ConfigErrors p)
  end.

(** Modelled from the spec: buildbot.util.ssfilter is missing from the
    sources.  The default of a field spec is [None]. *)
Definition is_None (v : PyValue) : bool :=
  match v with VNone => true | _ => false end.

(** Modelled from the spec: buildbot.util.ssfilter is missing from the
    sources.  The default of a branch spec is the sentinel, so that [None] can
    be asked for. *)
Definition is_NotABranch (v : PyValue) : bool :=
  match v with VNotABranch => true | _ => false end.

(** Modelled from the spec: buildbot.util.ssfilter is missing from the
    sources.  The filters of one field: exact values, their negation, regex,
    regex negation. *)
Definition create_filters_with (allow_none : bool)
    (is_unset : PyValue -> bool)
    (eq not_eq regex not_regex : PyValue) (p : string)
    : Result (list Filter) :=
  let* f1 := values_filter allow_none exact_match is_unset eq p in
  let* f2 := values_filter allow_none exact_not_match is_unset not_eq p in
  let* f3 := pattern_filter regex_match regex p in
  let* f4 := pattern_filter regex_not_match not_regex p in
  Ok (f1 ++ f2 ++ f3 ++ f4).

(** Modelled from the spec: buildbot.util.ssfilter is missing from the
    sources.  A property filter spec maps property names to specs of the kind
    above; each filter looks at the property of its name. *)
Fixpoint property_filters_of
    (make : PyValue -> string -> Result (list Filter))
    (entries : list (string * PyValue)) : Result (list Filter) :=
  match entries with
  | [] => Ok []
  | (name, spec) :: rest =>
      let* f := make spec name in
      let* fs := property_filters_of make rest in
      Ok (f ++ fs)
  end.

(** Modelled from the spec: buildbot.util.ssfilter is missing from the
    sources.  A property filter argument is [None] or a dictionary. *)
Definition property_spec
    (make : PyValue -> string -> Result (list Filter))
    (spec : PyValue) (arg_name : string) : Result (list Filter) :=
  match spec with
  | VNone => Ok []
  | VDict entries => property_filters_of make entries
  | _ => Raise (ConfigErrors arg_name)
  end.

(** Modelled from the spec: buildbot.util.ssfilter is missing from the
    sources.  The property filters: exact values, their negation, regex, regex
    negation. *)
Definition create_property_filters
    (eq not_eq regex not_regex : PyValue) (arg_name : string)
    : Result (list Filter) :=
  let* f1 :=
    property_spec (values_filter false exact_match is_None) eq arg_name in
  let* f2 :=
    property_spec (values_filter false exact_not_match is_None)
      not_eq arg_name in
  let* f3 := property_spec (pattern_filter regex_match) regex arg_name in
  let* f4 :=
    property_spec (pattern_filter regex_not_match) not_regex arg_name in
  Ok (f1 ++ f2 ++ f3 ++ f4).

(** Modelled from the spec: buildbot.util.ssfilter is missing from the
    sources.  The three constructors that filter.py imports. *)
#[local] Instance model : Ssfilter :=
  {| _create_filters := create_filters_with false is_None;
     _create_branch_filters := create_filters_with true is_NotABranch;
     _create_property_filters := create_property_filters |}.

End WithRegex.

(** Modelled from the spec: the regular-expression engine is outside the
    repository.  For a pattern without metacharacters [re.match] tests for a
    prefix. *)
Definition literal_match (pattern s : string) : bool :=
  String.prefix pattern s.

End ssfilter_model.

(** ** Filters and changes of the unit tests *)

Module filter_examples.
Import ssfilter filter.

(** The filter constructors, with literal patterns only. *)
Definition literal_ssfilter : Ssfilter :=
  ssfilter_model.model ssfilter_model.literal_match.

(** A callable that accepts every value. *)
Definition accept : Callable PyValue := fun _ => Ok true.

(** [ChangeFilter(<field>='x', <field>_fn=accept)] *)
Definition both_args (f : Field) : Args :=
  set_field f
    match f with
    | Branch => branch_value_and_fn "x" accept
    | _ => value_and_fn "x" accept
    end
    defaults.

(** [ChangeFilter(branch=value)], as test_base.py builds it. *)
Definition branch_args (value : string) : Args :=
  set_field Branch
    {| f_eq := VStr value; f_not_eq := VNotABranch; f_re := VNone;
       f_not_re := VNone; f_fn := None |}
    defaults.

(** [ChangeFilter(branch=value, branch_fn=accept)] *)
Definition branch_both_args (value : string) : Args :=
  set_field Branch (branch_value_and_fn value accept) defaults.

(** The filter that [ChangeFilter(branch=value, branch_fn=fn)] builds. *)
Definition branch_filter (value : string) (fn : option (Callable PyValue))
    : ChangeFilter :=
  {| filter_fn := None;
     filters := [ssfilter_model.exact_match "branch" [Some value]];
     property_filters := [];
     project_fn := None;
     repository_fn := None;
     branch_fn := fn;
     category_fn := None;
     codebase_fn := None |}.

(** [ChangeFilter(category='', property_eq={'flavour': ''})]: the filter. *)
Definition empty_category_filter : ChangeFilter :=
  {| filter_fn := None;
     filters := [ssfilter_model.exact_match "category" [Some ""]];
     property_filters := [ssfilter_model.exact_match "flavour" [Some ""]];
     project_fn := None;
     repository_fn := None;
     branch_fn := None;
     category_fn := None;
     codebase_fn := None |}.

(** The fake change of the gerrit tests:
    [category='ref-updated', branch='master'], together with the other
    fields that every change has. *)
Definition gerrit_change : Change :=
  {| attrs := {[ "project" := VStr "";
                 "repository" := VStr "";
                 "codebase" := VStr "";
                 "category" := VStr "ref-updated";
                 "branch" := VStr "master" ]};
     properties := ∅ |}.

(** A change object that has a branch and nothing else. *)
Definition bare_change : Change :=
  {| attrs := {[ "branch" := VStr "master" ]}; properties := ∅ |}.

End filter_examples.

(** ** buildbot.schedulers.base, from its description and its unit tests *)

Module base.

(** *** The data the scheduler works on *)

(** Modelled from the spec: base.py is missing from the sources.  One entry of
    the sourcestamp list of a buildset: the id of a persisted sourcestamp, or
    an inline dictionary of fields. *)
Inductive SourceStamp : Type :=
| SsId (ssid : Z)
| SsDict (fields : gmap string PyValue).

(** Modelled from the spec: base.py is missing from the sources.  A row of the
    changes table (fakedb.Change with its ChangeProperty rows). *)
Record ChangeRow : Type :=
  { changeid : Z;
    ch_codebase : string;
    sourcestampid : Z;
    ch_properties : gmap string (PyValue * string) }.

(** Modelled from the spec: base.py is missing from the sources.  The
    persistent store: the changes table and the builders table
    (fakedb.Builder, name to id). *)
Record Db : Type :=
  { changes : list ChangeRow;
    builders : gmap string Z }.

(** Modelled from the spec: base.py is missing from the sources.
    [getChange(id)] of the store; an unknown id is a lookup error. *)
Definition getChange (db : Db) (id : Z) : Result ChangeRow :=
  match find (fun row => changeid row =? id) (changes db) with
  | Some row => Ok row
  | None => Raise (KeyError "changeid")
  end.

(** Modelled from the spec: base.py is missing from the sources.
    [getBuilderId(name)] of the store; an unknown name is a lookup error. *)
Definition getBuilderId (db : Db) (builder : string) : Result Z :=
  match builders db !! builder with
  | Some id => Ok id
  | None => Raise (KeyError builder)
  end.

(** Modelled from the spec: base.py is missing from the sources.  An entry of
    [builderNames]: a plain name, or a value computed from the properties that
    yields some names, or [None] to skip. *)
Inductive BuilderName : Type :=
| Literal (builder : string)
| Computed (render : gmap string (PyValue * string) -> option (list string)).

(** Modelled from the spec: base.py is missing from the sources.  The
    configuration of a scheduler: its name, its builder names, its static
    properties and its codebases, each with a dictionary of defaults, in
    configuration order. *)
Record Scheduler : Type :=
  { name : string;
    builderNames : list BuilderName;
    sched_properties : gmap string PyValue;
    codebases : list (string * gmap string PyValue) }.

(** Modelled from the spec: base.py is missing from the sources.  The keyword
    arguments of the one call that creates a buildset. *)
Record AddBuildset : Type :=
  { scheduler : string;
    sourcestamps : list SourceStamp;
    reason : string;
    waited_for : bool;
    ab_properties : gmap string (PyValue * string);
    builderids : list Z;
    external_idstring : option string;
    priority : Z }.

(** *** CodebaseResolver *)

(** Modelled from the spec: base.py is missing from the sources.
    [getCodebaseDict] returns the configured defaults of a codebase and raises
    a lookup failure for an unknown name. *)
Definition getCodebaseDict (sched : Scheduler) (codebase : string)
    : Result (gmap string PyValue) :=
  match find (fun entry => bool_decide (entry.1 = codebase)) (codebases sched)
  with
  | Some entry => Ok entry.2
  | None => Raise (KeyError codebase)
  end.

(** Modelled from the spec: base.py is missing from the sources.  The stub
    sourcestamp of a codebase takes its fields from the defaults, with
    [revision] and [branch] defaulted to [None], [project] set to the empty
    string, and [repository] to the empty string as the unit tests expect. *)
Definition stub_sourcestamp (codebase : string) (cb : gmap string PyValue)
    : gmap string PyValue :=
  {[ "codebase" := VStr codebase;
     "repository" := default (VStr "") (cb !! "repository");
     "branch" := default VNone (cb !! "branch");
     "revision" := default VNone (cb !! "revision");
     "project" := VStr "" ]}.

(** *** BuildsetAssembler *)

(** Modelled from the spec: base.py is missing from the sources.  Changes are
    ordered by change id. *)
Definition older (a b : ChangeRow) : Prop := changeid a ≤ changeid b.

(** Modelled from the spec: base.py is missing from the sources.  The order on
    change ids is decidable. *)
#[global] Instance older_dec (a b : ChangeRow) : Decision (older a b) :=
  decide (changeid a ≤ changeid b).

(** Modelled from the spec: base.py is missing from the sources.  The
    properties of the changes are merged in change id order, the last writer
    winning. *)
Definition merge_change_properties (rows : list ChangeRow)
    : gmap string (PyValue * string) :=
  foldl (fun acc row => ch_properties row ∪ acc) ∅ (merge_sort older rows).

(** Modelled from the spec: base.py is missing from the sources.  Whether a
    sourcestamp entry is the persisted id [id]. *)
Definition is_ssid (id : Z) (ss : SourceStamp) : bool :=
  match ss with
  | SsId i => i =? id
  | SsDict _ => false
  end.

(** Modelled from the spec: base.py is missing from the sources.  The changes
    behind the persisted sourcestamps of a list. *)
Definition changes_of_sourcestamps (db : Db) (sss : list SourceStamp)
    : list ChangeRow :=
  List.filter
    (fun row => existsb (is_ssid (sourcestampid row)) sss)
    (changes db).

(** Modelled from the spec: base.py is missing from the sources.  The static
    properties of the scheduler are tagged "Scheduler". *)
Definition tag_scheduler (props : gmap string PyValue)
    : gmap string (PyValue * string) :=
  (fun v => (v, "Scheduler")) <$> props.

(** Modelled from the spec: base.py is missing from the sources.  The property
    merge of the common tail: the properties of the changes first, then the
    static properties of the scheduler, then the properties supplied by the
    caller, later ones overriding earlier ones; the [scheduler] property is
    set last. *)
Definition merge_properties (sched : Scheduler)
    (change_props caller_props : gmap string (PyValue * string))
    : gmap string (PyValue * string) :=
  <["scheduler" := (VStr (name sched), "Scheduler")]>
    (caller_props ∪ tag_scheduler (sched_properties sched) ∪ change_props).

(** Modelled from the spec: base.py is missing from the sources.  A plain
    entry yields its name; a computed entry is evaluated on the properties and
    yields no name when it returns [None]. *)
Definition render_builderName (props : gmap string (PyValue * string))
    (entry : BuilderName) : list string :=
  match entry with
  | Literal builder => [builder]
  | Computed render => default [] (render props)
  end.

(** Modelled from the spec: base.py is missing from the sources.  The override
    when one is given, else the configured entries; flattened and
    deduplicated. *)
Definition resolve_builderNames (sched : Scheduler)
    (override : option (list string))
    (props : gmap string (PyValue * string)) : list string :=
  remove_dups
    match override with
    | Some names => names
    | None => flat_map (render_builderName props) (builderNames sched)
    end.

(** Modelled from the spec: base.py is missing from the sources.  The names
    are mapped to builder ids; an unknown name is a lookup error. *)
Fixpoint getBuilderIds (db : Db) (names : list string) : Result (list Z) :=
  match names with
  | [] => Ok []
  | builder :: rest =>
      let* id := getBuilderId db builder in
      let* ids := getBuilderIds db rest in
      Ok (id :: ids)
  end.

(** Modelled from the spec: base.py is missing from the sources.  The common
    tail of the three entry points: it merges the properties, resolves the
    builders, fails when an override yields no builder, and returns the one
    buildset creation call it issues. *)
Definition addBuildsetForSourceStamps (sched : Scheduler) (db : Db)
    (reason : string) (sourcestamps : list SourceStamp) (waited_for : bool)
    (builderNames : option (list string))
    (properties : gmap string (PyValue * string))
    (priority : Z) (external_idstring : option string)
    : Result AddBuildset :=
  let props :=
    merge_properties sched
      (merge_change_properties (changes_of_sourcestamps db sourcestamps))
      properties in
  let* ids :=
    getBuilderIds db (resolve_builderNames sched builderNames props) in
  if bool_decide (ids = []) && bool_decide (is_Some builderNames)
  then Raise (ValueError "no builders requested")
  else
    Ok {| scheduler := name sched;
          sourcestamps := sourcestamps;
          reason := reason;
          waited_for := waited_for;
          ab_properties := props;
          builderids := ids;
          external_idstring := external_idstring;
          priority := priority |}.

(** Modelled from the spec: base.py is missing from the sources.  Each input
    sourcestamp names its codebase. *)
Definition ss_codebase (ss : gmap string PyValue) : Result string :=
  match ss !! "codebase" with
  | Some (VStr codebase) => Ok codebase
  | _ => Raise (KeyError "codebase")
  end.

(** Modelled from the spec: base.py is missing from the sources.  An input
    sourcestamp is laid over the entry of its codebase, with the fields it
    holds; for a codebase that is not configured it gets no configured
    defaults. *)
Fixpoint overlay (codebase : string) (ss : gmap string PyValue)
    (stamps : list (string * gmap string PyValue))
    : list (string * gmap string PyValue) :=
  match stamps with
  | [] => [(codebase, ss ∪ stub_sourcestamp codebase ∅)]
  | (cb, fields) :: rest =>
      if bool_decide (cb = codebase)
      then (cb, ss ∪ fields) :: rest
      else (cb, fields) :: overlay codebase ss rest
  end.

(** Modelled from the spec: base.py is missing from the sources.  The input
    sourcestamps are laid over the entries one after the other. *)
Fixpoint overlay_all (sourcestamps : list (gmap string PyValue))
    (stamps : list (string * gmap string PyValue))
    : Result (list (string * gmap string PyValue)) :=
  match sourcestamps with
  | [] => Ok stamps
  | ss :: rest =>
      let* codebase := ss_codebase ss in
      overlay_all rest (overlay codebase ss stamps)
  end.

(** Modelled from the spec: base.py is missing from the sources.  Every
    configured codebase gets its stub, then the input sourcestamps are laid
    over them. *)
Definition stampsWithDefaults (sched : Scheduler)
    (sourcestamps : list (gmap string PyValue))
    : Result (list SourceStamp) :=
  let stubs :=
    map (fun entry => (entry.1, stub_sourcestamp entry.1 entry.2))
      (codebases sched) in
  let* stamps := overlay_all sourcestamps stubs in
  Ok (map (fun entry => SsDict entry.2) stamps).

(** Modelled from the spec: base.py is missing from the sources.  The entry
    point for partial sourcestamp dictionaries: it fills in the defaults and
    goes on to the common tail. *)
Definition addBuildsetForSourceStampsWithDefaults (sched : Scheduler)
    (db : Db) (reason : string)
    (sourcestamps : list (gmap string PyValue)) (waited_for : bool)
    (builderNames : option (list string))
    (properties : gmap string (PyValue * string))
    (priority : Z) (external_idstring : option string)
    : Result AddBuildset :=
  let* stamps := stampsWithDefaults sched sourcestamps in
  addBuildsetForSourceStamps sched db reason stamps waited_for
    builderNames properties priority external_idstring.

(** Modelled from the spec: base.py is missing from the sources.  The change
    ids are resolved in the order given. *)
Fixpoint getChanges (db : Db) (changeids : list Z)
    : Result (list ChangeRow) :=
  match changeids with
  | [] => Ok []
  | id :: rest =>
      let* row := getChange db id in
      let* rows := getChanges db rest in
      Ok (row :: rows)
  end.

(** Modelled from the spec: base.py is missing from the sources.  The group of
    a codebase: the resolved changes that belong to it. *)
Definition changes_of_codebase (codebase : string) (rows : list ChangeRow)
    : list ChangeRow :=
  List.filter (fun row => bool_decide (ch_codebase row = codebase)) rows.

(** Modelled from the spec: base.py is missing from the sources.  The change
    with the highest change id, the first one among equals. *)
Fixpoint last_change (best : ChangeRow) (rows : list ChangeRow)
    : ChangeRow :=
  match rows with
  | [] => best
  | row :: rest =>
      last_change (if changeid best <? changeid row then row else best) rest
  end.

(** Modelled from the spec: base.py is missing from the sources.  A codebase
    with changes contributes the sourcestamp id of its change with the highest
    change id, a configured codebase without changes its stub. *)
Definition sourcestamp_for_codebase (rows : list ChangeRow)
    (entry : string * gmap string PyValue) : SourceStamp :=
  match changes_of_codebase entry.1 rows with
  | [] => SsDict (stub_sourcestamp entry.1 entry.2)
  | row :: rest => SsId (sourcestampid (last_change row rest))
  end.

(** Modelled from the spec: base.py is missing from the sources.  The entry
    point for change ids: one sourcestamp per configured codebase, then the
    common tail. *)
Definition addBuildsetForChanges (sched : Scheduler) (db : Db)
    (reason : string) (changeids : list Z) (waited_for : bool)
    (builderNames : option (list string))
    (properties : gmap string (PyValue * string))
    (priority : Z) (external_idstring : option string)
    : Result AddBuildset :=
  let* rows := getChanges db changeids in
  addBuildsetForSourceStamps sched db reason
    (map (sourcestamp_for_codebase rows) (codebases sched))
    waited_for builderNames properties priority external_idstring.

(** *** ChangeConsumer *)

(** Modelled from the spec: base.py is missing from the sources.  The
    arguments of [startConsumingChanges]. *)
Record Consumer : Type :=
  { fileIsImportant : option (Change -> Result bool);
    change_filter : option filter.ChangeFilter;
    onlyImportant : bool }.

(** Modelled from the spec: base.py is missing from the sources.  What
    consumption leaves behind: the calls of the handler [gotChange] of the
    scheduler, in order, and the errors that were logged. *)
Record Consumed : Type :=
  { delivered : list (Change * bool);
    logged : list PyExn }.

(** Modelled from the spec: base.py is missing from the sources.  The change
    is handed to the handler with its importance. *)
Definition deliver (change : Change) (important : bool) (st : Consumed)
    : Consumed :=
  {| delivered := delivered st ++ [(change, important)];
     logged := logged st |}.

(** Modelled from the spec: base.py is missing from the sources.  An error is
    logged. *)
Definition log_err (e : PyExn) (st : Consumed) : Consumed :=
  {| delivered := delivered st; logged := logged st ++ [e] |}.

(** Modelled from the spec: base.py is missing from the sources.  Without a
    change filter every change passes. *)
Definition passes_change_filter (consumer : Consumer) (change : Change)
    : Result bool :=
  match change_filter consumer with
  | Some cf => filter.filter_change cf change
  | None => Ok true
  end.

(** Modelled from the spec: base.py is missing from the sources.  Without
    [fileIsImportant] every change is important. *)
Definition importance (consumer : Consumer) (change : Change)
    : Result bool :=
  match fileIsImportant consumer with
  | Some f => f change
  | None => Ok true
  end.

(** Modelled from the spec: base.py is missing from the sources.  One
    notification: the change is dropped when the filter declines it; its
    importance is computed; an exception of a callable is logged and drops the
    change; an unimportant change is dropped when only important ones are
    wanted; otherwise the change goes to the handler. *)
Definition _changeCallback (consumer : Consumer) (change : Change)
    (st : Consumed) : Consumed :=
  match passes_change_filter consumer change with
  | Raise e => log_err e st
  | Ok false => st
  | Ok true =>
      match importance consumer change with
      | Raise e => log_err e st
      | Ok important =>
          if onlyImportant consumer && negb important then st
          else deliver change important st
      end
  end.

(** Modelled from the spec: base.py is missing from the sources.  Nothing
    delivered and nothing logged yet. *)
Definition nothing_consumed : Consumed :=
  {| delivered := []; logged := [] |}.

(** Modelled from the spec: base.py is missing from the sources.  What a state
    holds followed by what a second one holds. *)
Definition and_then (st more : Consumed) : Consumed :=
  {| delivered := delivered st ++ delivered more;
     logged := logged st ++ logged more |}.

(** Modelled from the spec: base.py is missing from the sources.  The
    notifications of the event bus carry change ids; each is resolved to its
    change once, and the notifications are handled in arrival order. *)
Definition consume (consumer : Consumer) (getChange : Z -> Change)
    (msgs : list Z) (st : Consumed) : Consumed :=
  foldl (fun st id => _changeCallback consumer (getChange id) st) st msgs.

(** *** ActivationArbiter *)

(** Modelled from the spec: base.py is missing from the sources.  The states
    of a scheduler instance. *)
Inductive ArbiterState : Type := INACTIVE | POLLING | ACTIVE.

(** Modelled from the spec: base.py is missing from the sources.  One
    scheduler instance on one master, with the number of times its hooks were
    invoked. *)
Record Instance : Type :=
  { masterid : Z;
    objectid : Z;
    state : ArbiterState;
    activate_calls : nat;
    deactivate_calls : nat }.

(** Modelled from the spec: base.py is missing from the sources.  The shared
    state: the claim table, object id to owning master, and the instance under
    observation. *)
Record World : Type :=
  { claims : gmap Z Z;
    inst : Instance }.

(** Modelled from the spec: base.py is missing from the sources.  An instance
    reports itself active in the state ACTIVE. *)
Definition isActive (i : Instance) : bool :=
  match state i with ACTIVE => true | _ => false end.

(** Modelled from the spec: base.py is missing from the sources.  A transition
    that invokes no hook. *)
Definition set_state (s : ArbiterState) (i : Instance) : Instance :=
  {| masterid := masterid i; objectid := objectid i; state := s;
     activate_calls := activate_calls i;
     deactivate_calls := deactivate_calls i |}.

(** Modelled from the spec: base.py is missing from the sources.  The
    transition to ACTIVE invokes the [activate] hook. *)
Definition activate (i : Instance) : Instance :=
  {| masterid := masterid i; objectid := objectid i; state := ACTIVE;
     activate_calls := S (activate_calls i);
     deactivate_calls := deactivate_calls i |}.

(** Modelled from the spec: base.py is missing from the sources.  The
    transition out of ACTIVE invokes the [deactivate] hook. *)
Definition deactivate (i : Instance) : Instance :=
  {| masterid := masterid i; objectid := objectid i; state := INACTIVE;
     activate_calls := activate_calls i;
     deactivate_calls := S (deactivate_calls i) |}.

(** Modelled from the spec: base.py is missing from the sources.  A claim is
    inserted only if the object has no owner; it succeeds also for the master
    that already owns the object. *)
Definition claim (obj master : Z) (tbl : gmap Z Z) : gmap Z Z * bool :=
  match tbl !! obj with
  | None => (<[obj := master]> tbl, true)
  | Some owner => (tbl, bool_decide (owner = master))
  end.

(** Modelled from the spec: base.py is missing from the sources.  A master
    releases only its own claim. *)
Definition release (obj master : Z) (tbl : gmap Z Z) : gmap Z Z :=
  match tbl !! obj with
  | Some owner => if bool_decide (owner = master) then delete obj tbl else tbl
  | None => tbl
  end.

(** Modelled from the spec: base.py is missing from the sources.  Starting an
    inactive instance begins the polling. *)
Definition startService (w : World) : World :=
  match state (inst w) with
  | INACTIVE => {| claims := claims w; inst := set_state POLLING (inst w) |}
  | _ => w
  end.

(** Modelled from the spec: base.py is missing from the sources.  A poll of a
    polling instance tries to claim and, on success, becomes active and
    invokes [activate] once; a poll of an active instance changes nothing. *)
Definition poll (w : World) : World :=
  match state (inst w) with
  | POLLING =>
      let '(tbl, ok) :=
        claim (objectid (inst w)) (masterid (inst w)) (claims w) in
      if ok then {| claims := tbl; inst := activate (inst w) |}
      else {| claims := tbl; inst := inst w |}
  | _ => w
  end.

(** Modelled from the spec: base.py is missing from the sources.  Stopping an
    active instance invokes [deactivate], releases the claim and ends the
    polling. *)
Definition stopService (w : World) : World :=
  match state (inst w) with
  | ACTIVE =>
      {| claims := release (objectid (inst w)) (masterid (inst w)) (claims w);
         inst := deactivate (inst w) |}
  | _ => {| claims := claims w; inst := set_state INACTIVE (inst w) |}
  end.

(** Modelled from the spec: base.py is missing from the sources.  What can
    happen to the world: the instance is started, its poll timer fires, it is
    stopped, or another master claims or releases the object. *)
Inductive Event : Type :=
| Start
| Poll
| Stop
| OtherClaims (master : Z)
| OtherReleases (master : Z).

(** Modelled from the spec: base.py is missing from the sources.  The effect
    of one event. *)
Definition step (w : World) (e : Event) : World :=
  match e with
  | Start => startService w
  | Poll => poll w
  | Stop => stopService w
  | OtherClaims master =>
      {| claims := (claim (objectid (inst w)) master (claims w)).1;
         inst := inst w |}
  | OtherReleases master =>
      {| claims := release (objectid (inst w)) master (claims w);
         inst := inst w |}
  end.

(** Modelled from the spec: base.py is missing from the sources.  The effect
    of a sequence of events. *)
Definition run (w : World) (events : list Event) : World :=
  foldl step w events.

(** Modelled from the spec: base.py is missing from the sources.  A scheduler
    that has not been started, on master [master]. *)
Definition fresh (master obj : Z) : Instance :=
  {| masterid := master; objectid := obj; state := INACTIVE;
     activate_calls := 0; deactivate_calls := 0 |}.

(** Modelled from the spec: base.py is missing from the sources.  What holds
    of the world as long as the other master keeps its claim: the instance has
    never been activated and is not active. *)
Definition never_activated (me other obj : Z) (w : World) : Prop :=
  masterid (inst w) = me ∧ objectid (inst w) = obj
  ∧ claims w !! obj = Some other
  ∧ isActive (inst w) = false
  ∧ activate_calls (inst w) = 0%nat.

End base.

(** ** The fixtures of test_base.py *)

Module test_base.
Import base.

(** [makeScheduler(name='n', builderNames=['b'])] with the default
    codebases [{'': {}}], and the builders table it inserts. *)
Definition sched_n : Scheduler :=
  {| name := "n";
     builderNames := [Literal "b"];
     sched_properties := ∅;
     codebases := [("", ∅)] |}.

Definition db_n : Db :=
  {| changes := []; builders := {[ "b" := 1 ]} |}.

Definition row (id : Z) (codebase : string) (ssid : Z) : ChangeRow :=
  {| changeid := id; ch_codebase := codebase; sourcestampid := ssid;
     ch_properties := ∅ |}.

(** test_addBuildsetForChanges_multiple_changes_same_codebase *)
Definition sched_cb : Scheduler :=
  {| name := "n";
     builderNames := [Literal "b"; Literal "c"];
     sched_properties := ∅;
     codebases := [("cb", {[ "repository" := VStr "http://repo" ]})] |}.

Definition db_cb : Db :=
  {| changes := [row 13 "cb" 12; row 14 "cb" 11; row 15 "cb" 10];
     builders := {[ "b" := 1; "c" := 2 ]} |}.

(** test_addBuildsetForChanges_codebases_set_multiple_codebases *)
Definition sched_multiple : Scheduler :=
  {| name := "n";
     builderNames := [Literal "b"; Literal "c"];
     sched_properties := ∅;
     codebases :=
       [("cbA", {[ "repository" := VStr "svn://A..";
                   "branch" := VStr "stable";
                   "revision" := VStr "13579" ]});
        ("cbB", {[ "repository" := VStr "svn://B..";
                   "branch" := VStr "stable";
                   "revision" := VStr "24680" ]});
        ("cbC", {[ "repository" := VStr "svn://C..";
                   "branch" := VStr "stable";
                   "revision" := VStr "12345" ]});
        ("cbD", {[ "repository" := VStr "svn://D.." ]})] |}.

Definition db_multiple : Db :=
  {| changes :=
       [row 12 "cbA" 912; row 13 "cbA" 913; row 14 "cbA" 914;
        row 15 "cbB" 915; row 16 "cbB" 916; row 17 "cbB" 917];
     builders := {[ "b" := 1; "c" := 2 ]} |}.

(** The sourcestamp that test_addBuildsetForSourceStampsWithDefaults_
    no_repository expects. *)
Definition exp_no_repository : gmap string PyValue :=
  {[ "repository" := VStr "";
     "branch" := VNone;
     "revision" := VNone;
     "codebase" := VStr "";
     "project" := VStr "" ]}.

(** Caller-supplied properties that try to set [scheduler]. *)
Definition props_with_scheduler : gmap string (PyValue * string) :=
  {[ "xxx" := (VStr "yyy", "TEST");
     "scheduler" := (VStr "mine", "TEST") ]}.

(** The change of do_test_change_consumption, resolved from any id. *)
Definition fake_change : Change :=
  {| attrs := {[ "project" := VStr ""; "repository" := VStr "";
                 "codebase" := VStr ""; "category" := VNone;
                 "branch" := VStr "master" ]};
     properties := ∅ |}.

(** [fileIsImportant=lambda c: 1 / 0] *)
Definition zero_division : Change -> Result bool :=
  fun _ => Raise (UserError 0).

Definition consumer_raising : Consumer :=
  {| fileIsImportant := Some zero_division;
     change_filter := None;
     onlyImportant := false |}.

(** test_activation: this master, the other master, and the object. *)
Definition MASTER_ID : Z := 1.
Definition OTHER_MASTER_ID : Z := 2.
Definition OBJECTID : Z := 19.

Definition claimed_elsewhere : World :=
  {| claims := {[ OBJECTID := OTHER_MASTER_ID ]};
     inst := fresh MASTER_ID OBJECTID |}.

End test_base.

(** * Properties *)

(** ** Report generators *)

Section Reporters.
Import results utils.

(** The shortcuts of the mode argument: "all" and "warnings" given as
    strings are expanded, a sequence is taken as it is. *)
Lemma compute_shortcut_modes_shortcuts :
  mode (utils.__init__ (ModeStr "all")) =
    ["failing"; "passing"; "warnings"; "exception"; "cancelled"]
  ∧ mode (utils.__init__ (ModeStr "warnings")) = ["failing"; "warnings"]
  ∧ mode (utils.__init__ (ModeStr "problem")) = ["problem"]
  ∧ ∀ ms, mode (utils.__init__ (ModeSeq ms)) = ms.
Proof. repeat split. Qed.

Lemma in_mode_true m self : in_mode m self = true ↔ m ∈ mode self.
Proof. unfold in_mode. apply bool_decide_eq_true. Qed.

Lemma in_mode_false m self : in_mode m self = false ↔ m ∉ mode self.
Proof. unfold in_mode. apply bool_decide_eq_false. Qed.

Lemma prev_differs_true prev r :
  prev_differs prev r = true ↔
  ∃ p, prev = Some p ∧ utils.results p ≠ r.
Proof.
  destruct prev as [p|]; simpl.
  - rewrite negb_true_iff, Z.eqb_neq. split.
    + intros Hne. exists p. auto.
    + intros (q & Hq & Hne). congruence.
  - split; [discriminate|]. intros (q & Hq & _). discriminate.
Qed.

Lemma only_mode_other m m' self :
  only_mode m self → m' ≠ m → in_mode m' self = false.
Proof.
  intros Honly Hne. apply in_mode_false. intros Hin.
  apply Hne, Honly, Hin.
Qed.

Lemma in_mode_without_problem m self :
  m ≠ "problem" → in_mode m (without_problem self) = in_mode m self.
Proof.
  intros Hne. unfold in_mode, without_problem. simpl.
  apply bool_decide_ext. rewrite !list_elem_of_In, filter_In.
  rewrite negb_true_iff, bool_decide_eq_false. tauto.
Qed.

Lemma in_mode_problem_without_problem self :
  in_mode "problem" (without_problem self) = false.
Proof.
  apply in_mode_false. unfold without_problem. simpl.
  rewrite list_elem_of_In, filter_In, negb_true_iff, bool_decide_eq_false.
  tauto.
Qed.

Lemma problem_branch self build :
  in_mode "problem" self && (utils.results build =? FAILURE)
    && prev_differs (prev_build build) FAILURE = true ↔
  "problem" ∈ mode self ∧ new_failure build.
Proof.
  rewrite !andb_true_iff, in_mode_true, Z.eqb_eq, prev_differs_true.
  unfold new_failure. tauto.
Qed.

(** C1, as stated, fails: with mode ["problem"] only, a failed build without
    a previous build needs no message, although the claimed condition (the
    build failed and there is no previous build) holds. *)
Lemma problem_mode_first_build_counterexample :
  let self := {| mode := ["problem"] |} in
  let build := {| utils.results := FAILURE; prev_build := None |} in
  ¬ (is_message_needed_by_results self build = true ↔
     utils.results build = FAILURE ∧
     (prev_build build = None ∨
      ∃ p, prev_build build = Some p ∧ utils.results p ≠ FAILURE)).
Proof.
  intros self build [_ Hclaim].
  assert (Hfalse : is_message_needed_by_results self build = false)
    by reflexivity.
  rewrite Hclaim in Hfalse; [discriminate|].
  split; [reflexivity|]. left. reflexivity.
Qed.

(** C1, amended: with "problem" among the configured modes, a message is
    needed exactly when the build failed and a previous build exists whose
    result is not FAILURE, or when the remaining modes need one.  So with
    "problem" as the only mode a message is needed exactly for a failure
    that follows a build that did not fail: none when there is no previous
    build, none for FAILURE after FAILURE, one for FAILURE after SUCCESS. *)
Theorem problem_mode_needs_new_failure
    (self : BuildStatusGeneratorMixin) (build : Build) :
  "problem" ∈ mode self →
  (is_message_needed_by_results self build = true ↔
   new_failure build ∨
   is_message_needed_by_results (without_problem self) build = true)
  ∧ (only_mode "problem" self →
     (is_message_needed_by_results self build = true ↔ new_failure build)
     ∧ (prev_build build = None →
        is_message_needed_by_results self build = false)
     ∧ (∀ p, utils.results build = FAILURE → prev_build build = Some p →
        utils.results p = FAILURE →
        is_message_needed_by_results self build = false))
  ∧ (∀ p, utils.results build = FAILURE → prev_build build = Some p →
     utils.results p = SUCCESS →
     is_message_needed_by_results self build = true).
Proof.
  intros Hin.
  assert (Hdecomp :
    is_message_needed_by_results self build = true ↔
    new_failure build ∨
    is_message_needed_by_results (without_problem self) build = true).
  { pose proof (problem_branch self build) as Hpb.
    unfold is_message_needed_by_results in *.
    rewrite in_mode_problem_without_problem.
    rewrite !in_mode_without_problem by discriminate.
    simpl andb at 4.
    destruct (in_mode "change" self
              && prev_differs (prev_build build) (utils.results build));
      [tauto|].
    destruct (in_mode "failing" self && (utils.results build =? FAILURE));
      [tauto|].
    destruct (in_mode "passing" self && (utils.results build =? SUCCESS));
      [tauto|].
    destruct (in_mode "problem" self && (utils.results build =? FAILURE)
              && prev_differs (prev_build build) FAILURE).
    - split; [|reflexivity]. intros _. left. apply Hpb. reflexivity.
    - assert (¬ new_failure build) as Hnot.
      { intros Hnf. destruct Hpb as [_ Hpb]. discriminate Hpb. tauto. }
      tauto. }
  assert (Honly : only_mode "problem" self →
    is_message_needed_by_results (without_problem self) build = false).
  { intros Honly. unfold is_message_needed_by_results.
    rewrite in_mode_problem_without_problem.
    rewrite !in_mode_without_problem by discriminate.
    rewrite !(only_mode_other "problem") by (done || discriminate).
    reflexivity. }
  split; [exact Hdecomp|]. split.
  - intros Ho. specialize (Honly Ho).
    assert (Hiff :
      is_message_needed_by_results self build = true ↔ new_failure build).
    { rewrite Hdecomp, Honly. intuition discriminate. }
    split; [exact Hiff|]. split.
    + intros Hnone. apply not_true_is_false. rewrite Hiff.
      intros (_ & p & Hp & _). congruence.
    + intros p _ Hp Hfail. apply not_true_is_false. rewrite Hiff.
      intros (_ & q & Hq & Hne). congruence.
  - intros p Hres Hp Hsucc. apply Hdecomp. left. split; [exact Hres|].
    exists p. split; [exact Hp|]. rewrite Hsucc. discriminate.
Qed.

Lemma problem_mode_needs_new_failure_witness :
  let self := {| mode := ["problem"] |} in
  let prev := {| utils.results := SUCCESS; prev_build := None |} in
  let build := {| utils.results := FAILURE; prev_build := Some prev |} in
  "problem" ∈ mode self ∧ only_mode "problem" self ∧
  is_message_needed_by_results self build = true.
Proof.
  intros self prev build.
  assert (Hin : "problem" ∈ mode self) by (simpl; constructor).
  split; [exact Hin|]. split.
  - intros m Hm. simpl in Hm. apply list_elem_of_singleton in Hm. exact Hm.
  - destruct (problem_mode_needs_new_failure self build Hin)
      as (_ & _ & Hfs).
    apply (Hfs prev); reflexivity.
Defined.

(** C9: merging two string bodies or two list bodies concatenates them and
    logs nothing; for every other pair of bodies that are both not None the
    earlier body is kept, the later one is dropped (the flag is False) and
    one warning is logged.  The function is total: it raises nothing. *)
Theorem merge_body_concatenates_or_drops
    (self : BuildStatusGeneratorMixin) (body new_body : PyValue) :
  body ≠ VNone → new_body ≠ VNone →
  (∀ s t, body = VStr s → new_body = VStr t →
     _merge_body self body new_body = ((VStr (s +:+ t), true), []))
  ∧ (∀ l k, body = VList l → new_body = VList k →
     _merge_body self body new_body = ((VList (l ++ k), true), []))
  ∧ (¬ (type_of body = TStr ∧ type_of new_body = TStr) →
     ¬ (type_of body = TList ∧ type_of new_body = TList) →
     _merge_body self body new_body =
       ((body, false),
        [IncompatibleBodyTypes self (type_of body) (type_of new_body)])).
Proof.
  intros Hbody Hnew. repeat split.
  - intros s t -> ->. reflexivity.
  - intros l k -> ->. reflexivity.
  - intros Hstr Hlist.
    destruct body, new_body; simpl in *; try reflexivity;
      try congruence; exfalso; tauto.
Qed.

Lemma merge_body_concatenates_or_drops_witness :
  let self := {| mode := ["failing"] |} in
  _merge_body self (VStr "a") (VDict []) =
    ((VStr "a", false), [IncompatibleBodyTypes self TStr TDict])
  ∧ _merge_body self (VStr "a") (VStr "b") = ((VStr "ab", true), []).
Proof.
  intros self.
  destruct (merge_body_concatenates_or_drops self (VStr "a") (VDict []))
    as (_ & _ & Hdrop); [discriminate | discriminate |].
  destruct (merge_body_concatenates_or_drops self (VStr "a") (VStr "b"))
    as (Hcat & _ & _); [discriminate | discriminate |].
  split.
  - apply Hdrop; simpl; intros [? ?]; discriminate.
  - apply (Hcat "a" "b"); reflexivity.
Defined.

End Reporters.

(** ** Change filters *)

Section ChangeFilters.
Import ssfilter filter.

Lemma first_failure_app (l k : list (SubFilter * Result bool)) :
  first_failure (l ++ k) =
  let* b := first_failure l in if b then first_failure k else Ok false.
Proof.
  induction l as [|[who r] l IH]; simpl.
  - destruct (first_failure k) as [[|]|]; reflexivity.
  - destruct r as [[|]|e]; simpl; [exact IH | reflexivity | reflexivity].
Qed.

Lemma first_failure_fn {A : Type} who (fn : option (Callable A)) x :
  first_failure (fn_outcome who fn x) =
  let* r := rejects fn x in Ok (negb r).
Proof.
  destruct fn as [f|]; simpl; [|reflexivity].
  destruct x as [a|e]; simpl; [|reflexivity].
  destruct (f a) as [[|]|e]; reflexivity.
Qed.

Lemma first_failure_imap (label : nat → SubFilter) get fs :
  first_failure (imap (fun i (f : Filter) =>
                         (label i, is_matched f (get (prop f)))) fs) =
  all_matched get fs.
Proof.
  revert label. induction fs as [|f fs IH]; intros label; simpl.
  - reflexivity.
  - destruct (is_matched f (get (prop f))) as [[|]|e]; simpl;
      [|reflexivity|reflexivity].
    apply (IH (label ∘ S)).
Qed.

(** [filter_change] is the evaluation of the sub-filters in their fixed
    order that stops at the first one that does not pass. *)
Lemma filter_change_first_failure self change :
  filter_change self change = first_failure (sub_filters self change).
Proof.
  pose proof (first_failure_imap ByFieldFilter
                (fun p => getattr change p (VStr "")) (filters self)) as Hf.
  pose proof (first_failure_imap ByPropertyFilter
                (fun p => getProperty (properties change) p (VStr ""))
                (property_filters self)) as Hp.
  cbv beta in Hf, Hp.
  unfold filter_change, sub_filters.
  rewrite !first_failure_app, !first_failure_fn, Hf, Hp.
  destruct (rejects (filter_fn self) (Ok change)) as [[|]|]; simpl;
    try reflexivity.
  destruct (rejects (project_fn self) (attr change "project")) as [[|]|];
    simpl; try reflexivity.
  destruct (rejects (codebase_fn self) (attr change "codebase")) as [[|]|];
    simpl; try reflexivity.
  destruct (rejects (repository_fn self) (attr change "repository"))
    as [[|]|]; simpl; try reflexivity.
  destruct (rejects (category_fn self) (attr change "category")) as [[|]|];
    simpl; try reflexivity.
  destruct (rejects (branch_fn self) (attr change "branch")) as [[|]|];
    simpl; try reflexivity.
  destruct (all_matched _ (filters self)) as [[|]|]; simpl; try reflexivity.
  destruct (all_matched _ (property_filters self)) as [[|]|]; reflexivity.
Qed.

Lemma first_failure_true outcomes :
  first_failure outcomes = Ok true ↔ Forall passes outcomes.
Proof.
  induction outcomes as [|[who r] l IH]; simpl.
  - split; [constructor | reflexivity].
  - rewrite Forall_cons. unfold passes at 1. simpl.
    destruct r as [[|]|e]; simpl.
    + rewrite IH. tauto.
    + split; [discriminate | intros [? _]; discriminate].
    + split; [discriminate | intros [? _]; discriminate].
Qed.

Lemma first_failure_stops pre o post :
  Forall passes pre → fails o →
  first_failure (pre ++ o :: post) = Ok false.
Proof.
  intros Hpre Hfail. rewrite first_failure_app.
  apply first_failure_true in Hpre. rewrite Hpre. simpl.
  destruct o as [who r]. unfold fails in Hfail. simpl in Hfail.
  rewrite Hfail. reflexivity.
Qed.

Lemma first_failure_any outcomes o :
  Forall returns outcomes → o ∈ outcomes → fails o →
  first_failure outcomes = Ok false.
Proof.
  induction outcomes as [|[who r] l IH]; intros Hret Hin Hfail.
  - apply not_elem_of_nil in Hin. contradiction.
  - apply Forall_cons in Hret as [Hr Hl]. unfold returns in Hr.
    simpl in Hr. simpl. destruct r as [[|]|e]; simpl;
      [|reflexivity|discriminate].
    apply elem_of_cons in Hin as [->|Hin].
    + unfold fails in Hfail. simpl in Hfail. discriminate.
    + apply IH; assumption.
Qed.

(** C6: [filter_change] returns true exactly when every configured
    sub-filter passes.  The sub-filters are evaluated in the order generic
    filter function, project, codebase, repository, category, branch, field
    filters, property filters, and the evaluation stops at the first one
    that does not pass: when all sub-filters before a failing one pass, the
    result is false whatever the later ones would do, and when no sub-filter
    raises, a single failing sub-filter makes the result false. *)
Theorem filter_change_all_sub_filters
    (self : ChangeFilter) (change : Change) :
  filter_change self change = first_failure (sub_filters self change)
  ∧ (filter_change self change = Ok true ↔
     Forall passes (sub_filters self change))
  ∧ (∀ pre o post,
       sub_filters self change = pre ++ o :: post →
       Forall passes pre → fails o →
       filter_change self change = Ok false)
  ∧ (∀ o,
       Forall returns (sub_filters self change) →
       o ∈ sub_filters self change → fails o →
       filter_change self change = Ok false).
Proof.
  pose proof (filter_change_first_failure self change) as Heq.
  split; [exact Heq|]. rewrite Heq. split; [|split].
  - apply first_failure_true.
  - intros pre o post -> Hpre Hfail.
    apply first_failure_stops; assumption.
  - intros o Hret Hin Hfail.
    apply (first_failure_any _ o); assumption.
Qed.

Lemma filter_change_all_sub_filters_witness :
  let self := filter_examples.branch_filter "other" (Some filter_examples.accept) in
  let change := filter_examples.gerrit_change in
  sub_filters self change =
    [(ByFieldFn Branch, Ok true)] ++ (ByFieldFilter 0, Ok false) :: []
  ∧ Forall returns (sub_filters self change)
  ∧ filter_change self change = Ok false.
Proof.
  intros self change.
  assert (Hsub : sub_filters self change =
            [(ByFieldFn Branch, Ok true)] ++ (ByFieldFilter 0, Ok false) :: [])
    by (vm_compute; reflexivity).
  assert (Hpre : Forall passes [(ByFieldFn Branch, Ok true)])
    by (repeat constructor).
  split; [exact Hsub|]. split.
  - rewrite Hsub. repeat constructor.
  - destruct (filter_change_all_sub_filters self change)
      as (_ & _ & Hstop & _).
    apply (Hstop _ _ _ Hsub Hpre). reflexivity.
Defined.

Lemma getattr_absent change p default :
  attrs change !! p = None → getattr change p default = default.
Proof. unfold getattr. intros ->. reflexivity. Qed.

Lemma getattr_set_attr_absent change p q :
  attrs change !! p = None →
  getattr (set_attr p (VStr "") change) q (VStr "") =
  getattr change q (VStr "").
Proof.
  intros Habsent. unfold getattr, set_attr. simpl.
  destruct (decide (p = q)) as [->|Hne].
  - rewrite lookup_insert_eq, Habsent. reflexivity.
  - rewrite lookup_insert_ne by exact Hne. reflexivity.
Qed.

Lemma getProperty_absent props p default :
  props !! p = None → getProperty props p default = default.
Proof. unfold getProperty. intros ->. reflexivity. Qed.

Lemma getProperty_set_property_absent change p q source :
  properties change !! p = None →
  getProperty (properties (set_property p (VStr "") source change)) q
    (VStr "") =
  getProperty (properties change) q (VStr "").
Proof.
  intros Habsent. unfold getProperty, set_property. simpl.
  destruct (decide (p = q)) as [->|Hne].
  - rewrite lookup_insert_eq, Habsent. reflexivity.
  - rewrite lookup_insert_ne by exact Hne. reflexivity.
Qed.

Lemma all_matched_ext get get' fs :
  (∀ q, get q = get' q) → all_matched get fs = all_matched get' fs.
Proof.
  intros Hext. induction fs as [|f fs IH]; simpl; [reflexivity|].
  rewrite Hext, IH. reflexivity.
Qed.

Lemma attr_set_attr_ne change p q v :
  p ≠ q → attr (set_attr p v change) q = attr change q.
Proof.
  intros Hne. unfold attr, set_attr. simpl.
  rewrite lookup_insert_ne by exact Hne. reflexivity.
Qed.

Lemma rejects_field_absent self change p fld :
  (∀ f, field_name f = p → field_fn f self = None) →
  rejects (field_fn fld self)
    (attr (set_attr p (VStr "") change) (field_name fld)) =
  rejects (field_fn fld self) (attr change (field_name fld)).
Proof.
  intros Hnofn. destruct (decide (field_name fld = p)) as [Heq|Hne].
  - rewrite (Hnofn fld Heq). reflexivity.
  - rewrite attr_set_attr_ne by congruence. reflexivity.
Qed.

Lemma field_filter_in_sub_filters self change i f :
  filters self !! i = Some f →
  (ByFieldFilter i, is_matched f (getattr change (prop f) (VStr "")))
    ∈ sub_filters self change.
Proof.
  intros Hi. unfold sub_filters. rewrite !elem_of_app.
  do 6 right. left. apply elem_of_lookup_imap. exists i, f. auto.
Qed.

Lemma property_filter_in_sub_filters self change i f :
  property_filters self !! i = Some f →
  (ByPropertyFilter i,
   is_matched f (getProperty (properties change) (prop f) (VStr "")))
    ∈ sub_filters self change.
Proof.
  intros Hi. unfold sub_filters. rewrite !elem_of_app.
  do 7 right. apply elem_of_lookup_imap. exists i, f. auto.
Qed.

(** C10: a field filter applied to a change without the filtered attribute
    is evaluated on the empty string, and so is a property filter applied
    to a change without that property.  Hence value-based field filters and
    property filters cannot tell an absent attribute or property from an
    empty one: when no callable looks at the change or at that attribute,
    [filter_change] gives the same answer for the change without the
    attribute (or property) and for the change that has it set to the empty
    string. *)
Theorem filter_change_absent_is_empty
    (self : ChangeFilter) (change : Change) (p : string) :
  filter_change self change = first_failure (sub_filters self change)
  ∧ (attrs change !! p = None →
   (∀ i f, filters self !! i = Some f → prop f = p →
      (ByFieldFilter i, is_matched f (VStr "")) ∈ sub_filters self change)
   ∧ (filter_fn self = None →
      (∀ f, field_name f = p → field_fn f self = None) →
      filter_change self (set_attr p (VStr "") change) =
      filter_change self change))
  ∧ (properties change !! p = None →
     (∀ i f, property_filters self !! i = Some f → prop f = p →
        (ByPropertyFilter i, is_matched f (VStr ""))
          ∈ sub_filters self change)
     ∧ (filter_fn self = None →
        ∀ source,
          filter_change self (set_property p (VStr "") source change) =
          filter_change self change)).
Proof.
  split; [apply filter_change_first_failure|]. split.
  - intros Habsent. split.
    + intros i f Hi Hprop.
      pose proof (field_filter_in_sub_filters self change i f Hi) as Hin.
      rewrite Hprop, (getattr_absent _ _ _ Habsent) in Hin. exact Hin.
    + intros Hnofilter Hnofn. unfold filter_change.
      rewrite Hnofilter. simpl rejects at 1. simpl rejects at 6.
      pose proof (rejects_field_absent self change p Project Hnofn) as H1.
      pose proof (rejects_field_absent self change p Codebase Hnofn) as H2.
      pose proof (rejects_field_absent self change p Repository Hnofn) as H3.
      pose proof (rejects_field_absent self change p Category Hnofn) as H4.
      pose proof (rejects_field_absent self change p Branch Hnofn) as H5.
      simpl in H1, H2, H3, H4, H5. rewrite H1, H2, H3, H4, H5.
      rewrite (all_matched_ext
                 (fun q => getattr (set_attr p (VStr "") change) q (VStr ""))
                 (fun q => getattr change q (VStr "")))
        by (intros q; apply getattr_set_attr_absent, Habsent).
      reflexivity.
  - intros Habsent. split.
    + intros i f Hi Hprop.
      pose proof (property_filter_in_sub_filters self change i f Hi) as Hin.
      rewrite Hprop, (getProperty_absent _ _ _ Habsent) in Hin. exact Hin.
    + intros Hnofilter source. unfold filter_change.
      rewrite Hnofilter. simpl rejects at 1. simpl rejects at 6.
      rewrite (all_matched_ext
                 (fun q => getProperty
                             (properties
                                (set_property p (VStr "") source change))
                             q (VStr ""))
                 (fun q => getProperty (properties change) q (VStr "")))
        by (intros q; apply getProperty_set_property_absent, Habsent).
      reflexivity.
Qed.

Lemma filter_change_absent_is_empty_witness :
  let self := filter_examples.empty_category_filter in
  let change := filter_examples.bare_change in
  attrs change !! "category" = None
  ∧ properties change !! "flavour" = None
  ∧ filter_change self (set_attr "category" (VStr "") change) =
    filter_change self change
  ∧ filter_change self
      (set_property "flavour" (VStr "") "Change" change) =
    filter_change self change
  ∧ (ByFieldFilter 0, Ok true) ∈ sub_filters self change
  ∧ (ByPropertyFilter 0, Ok true) ∈ sub_filters self change.
Proof.
  intros self change.
  assert (Hattr : attrs change !! "category" = None) by reflexivity.
  assert (Hprop : properties change !! "flavour" = None) by reflexivity.
  destruct (filter_change_absent_is_empty self change "category")
    as (_ & Hfield & _).
  destruct (filter_change_absent_is_empty self change "flavour")
    as (_ & _ & Hproperty).
  destruct (Hfield Hattr) as [Hvalue Hsame].
  destruct (Hproperty Hprop) as [Hpvalue Hpsame].
  split; [exact Hattr|]. split; [exact Hprop|]. split; [|split; [|split]].
  - apply Hsame; [reflexivity|]. intros f _. destruct f; reflexivity.
  - apply Hpsame. reflexivity.
  - apply (Hvalue 0%nat (ssfilter_model.exact_match "category" [Some ""]));
      reflexivity.
  - apply (Hpvalue 0%nat (ssfilter_model.exact_match "flavour" [Some ""]));
      reflexivity.
Defined.

(** C2, as stated, fails: for each of the five fields, a constructor call
    that gives the field both an exact value and a callable returns a
    filter. *)
Lemma value_and_callable_counterexample :
  let init := @__init__ filter_examples.literal_ssfilter in
  (has_both Project (filter_examples.both_args Project)
   ∧ raises (init (filter_examples.both_args Project)) = false)
  ∧ (has_both Repository (filter_examples.both_args Repository)
     ∧ raises (init (filter_examples.both_args Repository)) = false)
  ∧ (has_both Branch (filter_examples.both_args Branch)
     ∧ raises (init (filter_examples.both_args Branch)) = false)
  ∧ (has_both Category (filter_examples.both_args Category)
     ∧ raises (init (filter_examples.both_args Category)) = false)
  ∧ (has_both Codebase (filter_examples.both_args Codebase)
     ∧ raises (init (filter_examples.both_args Codebase)) = false).
Proof.
  intros init.
  repeat split; try (left; simpl; discriminate); simpl; eauto.
Qed.

Lemma bind_ok_inv {A B : Type} (r : Result A) (k : A → Result B) b :
  (let* a := r in k a) = Ok b → ∃ a, r = Ok a ∧ k a = Ok b.
Proof. destruct r as [a|e]; simpl; [eauto | discriminate]. Qed.

Lemma rejects_false {A : Type} (f : Callable A) x :
  rejects (Some f) x = Ok false → (let* a := x in f a) = Ok true.
Proof.
  simpl. destruct x as [a|e]; simpl; [|discriminate].
  destruct (f a) as [[|]|e]; simpl; [reflexivity | discriminate..].
Qed.

(** A change that the filter accepts is accepted by the callable of every
    field and matched by every field filter and every property filter. *)
Lemma filter_change_true self change :
  filter_change self change = Ok true →
  (∀ fld f, field_fn fld self = Some f →
     (let* v := attr change (field_name fld) in f v) = Ok true)
  ∧ all_matched (fun q => getattr change q (VStr "")) (filters self)
    = Ok true
  ∧ all_matched
      (fun q => getProperty (properties change) q (VStr ""))
      (property_filters self) = Ok true.
Proof.
  unfold filter_change.
  destruct (rejects (filter_fn self) (Ok change)) as [[|]|];
    simpl; try discriminate.
  destruct (rejects (project_fn self) _) as [[|]|] eqn:Hproject;
    simpl; try discriminate.
  destruct (rejects (codebase_fn self) _) as [[|]|] eqn:Hcodebase;
    simpl; try discriminate.
  destruct (rejects (repository_fn self) _) as [[|]|] eqn:Hrepository;
    simpl; try discriminate.
  destruct (rejects (category_fn self) _) as [[|]|] eqn:Hcategory;
    simpl; try discriminate.
  destruct (rejects (branch_fn self) _) as [[|]|] eqn:Hbranch;
    simpl; try discriminate.
  destruct (all_matched _ (filters self)) as [[|]|];
    simpl; try discriminate.
  destruct (all_matched _ (property_filters self)) as [[|]|];
    simpl; try discriminate.
  intros _. split; [|split; reflexivity].
  intros fld f Hfn. apply rejects_false.
  destruct fld; simpl in Hfn; rewrite <- Hfn.
  - exact Hproject.
  - exact Hrepository.
  - exact Hbranch.
  - exact Hcategory.
  - exact Hcodebase.
Qed.

(** C2, amended: giving a field both a value-based filter and a callable is
    legal.  Whatever the filter constructors of ssfilter do, the callables
    play no part in whether construction fails: the constructor raises
    exactly when the same call without the field callables raises, with the
    same exception, and that happens at construction.  When it returns, the
    value-based filters are the ones built without the callables, every
    callable is stored, and [filter_change] evaluates the callable of a
    field as one more sub-filter next to the value-based ones. *)
Theorem init_keeps_value_filters_and_callables
    `{Ssfilter} (a : Args) :
  match __init__ a, __init__ (without_fns a) with
  | Ok cf, Ok cf0 =>
      filters cf = filters cf0
      ∧ property_filters cf = property_filters cf0
      ∧ filter_fn cf = arg_filter_fn a
      ∧ (∀ fld, field_fn fld cf = f_fn (field_args fld a))
      ∧ (∀ fld f change,
           has_both fld a → f_fn (field_args fld a) = Some f →
           filter_change cf change = Ok true →
           (let* v := attr change (field_name fld) in f v) = Ok true
           ∧ all_matched (fun q => getattr change q (VStr "")) (filters cf)
             = Ok true)
  | Raise e, Raise e0 => e = e0
  | _, _ => False
  end.
Proof.
  unfold __init__, without_fns. simpl.
  destruct (_create_filters (f_eq (project a)) _ _ _ "project");
    simpl; [|reflexivity].
  destruct (_create_filters (f_eq (repository a)) _ _ _ "repository");
    simpl; [|reflexivity].
  destruct (_create_branch_filters (f_eq (branch a)) _ _ _ "branch");
    simpl; [|reflexivity].
  destruct (_create_filters (f_eq (category a)) _ _ _ "category");
    simpl; [|reflexivity].
  destruct (_create_filters (f_eq (codebase a)) _ _ _ "codebase");
    simpl; [|reflexivity].
  destruct (_create_property_filters _ _ _ _ "property");
    simpl; [|reflexivity].
  split; [reflexivity|]. split; [reflexivity|]. split; [reflexivity|].
  split.
  - intros fld. destruct fld; reflexivity.
  - intros fld f change _ Hfn Htrue.
    apply filter_change_true in Htrue as (Hfns & Hfilters & _).
    split; [|exact Hfilters]. apply Hfns. destruct fld; exact Hfn.
Qed.

Lemma init_keeps_value_filters_and_callables_witness :
  let a := filter_examples.branch_both_args "master" in
  let cf := filter_examples.branch_filter "master"
              (Some filter_examples.accept) in
  has_both Branch a
  ∧ @__init__ filter_examples.literal_ssfilter a = Ok cf
  ∧ filter_change cf filter_examples.gerrit_change = Ok true
  ∧ (let* v := attr filter_examples.gerrit_change "branch" in
     filter_examples.accept v) = Ok true
  ∧ all_matched
      (fun q => getattr filter_examples.gerrit_change q (VStr ""))
      (filters cf) = Ok true.
Proof.
  intros a cf.
  assert (Hboth : has_both Branch a).
  { split; [left; simpl; discriminate | simpl; eauto]. }
  assert (Hinit : @__init__ filter_examples.literal_ssfilter a = Ok cf)
    by reflexivity.
  pose proof (@init_keeps_value_filters_and_callables
                filter_examples.literal_ssfilter a) as Hkeep.
  rewrite Hinit in Hkeep.
  destruct (@__init__ filter_examples.literal_ssfilter (without_fns a))
    as [cf0|e]; [|contradiction].
  destruct Hkeep as (_ & _ & _ & _ & Happlied).
  assert (Htrue : filter_change cf filter_examples.gerrit_change = Ok true)
    by (vm_compute; reflexivity).
  split; [exact Hboth|]. split; [reflexivity|]. split; [exact Htrue|].
  apply (Happlied Branch filter_examples.accept
           filter_examples.gerrit_change Hboth); [reflexivity|].
  exact Htrue.
Defined.

End ChangeFilters.

(** ** Scheduler: buildset assembly *)

Section Buildsets.
Import base.

Lemma addBuildsetForSourceStamps_ok sched db reason sss waited_for
    builderNames properties priority ext call :
  addBuildsetForSourceStamps sched db reason sss waited_for builderNames
    properties priority ext = Ok call →
  sourcestamps call = sss
  ∧ ab_properties call =
      merge_properties sched
        (merge_change_properties (changes_of_sourcestamps db sss))
        properties.
Proof.
  unfold addBuildsetForSourceStamps.
  destruct (getBuilderIds db _) as [ids|e]; simpl; [|discriminate].
  destruct (bool_decide (ids = []) && bool_decide (is_Some builderNames));
    [discriminate|].
  intros [= <-]. split; reflexivity.
Qed.

Lemma merge_properties_scheduler sched change_props caller_props :
  merge_properties sched change_props caller_props !! "scheduler" =
  Some (VStr (name sched), "Scheduler").
Proof. unfold merge_properties. apply lookup_insert_eq. Qed.

Lemma merge_properties_caller sched change_props caller_props key v :
  key ≠ "scheduler" → caller_props !! key = Some v →
  merge_properties sched change_props caller_props !! key = Some v.
Proof.
  intros Hne Hkey. unfold merge_properties.
  rewrite lookup_insert_ne by congruence.
  rewrite <- (assoc_L (∪)).
  apply lookup_union_Some_l, Hkey.
Qed.

(** C3: whichever of the three entry points is called, the properties of
    the buildset creation call it issues map [scheduler] to the name of the
    scheduler with source "Scheduler", whatever properties the caller
    supplies, also under the key [scheduler]; the caller's other properties
    are passed on. *)
Theorem scheduler_property_is_set_last
    (sched : Scheduler) (db : Db) (reason : string) (waited_for : bool)
    (builderNames : option (list string))
    (properties : gmap string (PyValue * string))
    (priority : Z) (ext : option string) (call : AddBuildset) :
  (∃ sourcestamps,
     addBuildsetForSourceStampsWithDefaults sched db reason sourcestamps
       waited_for builderNames properties priority ext = Ok call)
  ∨ (∃ changeids,
       addBuildsetForChanges sched db reason changeids
         waited_for builderNames properties priority ext = Ok call)
  ∨ (∃ sourcestamps,
       addBuildsetForSourceStamps sched db reason sourcestamps
         waited_for builderNames properties priority ext = Ok call) →
  ab_properties call !! "scheduler" = Some (VStr (name sched), "Scheduler")
  ∧ (∀ key v, key ≠ "scheduler" → properties !! key = Some v →
       ab_properties call !! key = Some v).
Proof.
  intros Hcall.
  assert (∃ sss,
    addBuildsetForSourceStamps sched db reason sss waited_for builderNames
      properties priority ext = Ok call) as [sss Htail].
  { destruct Hcall as [[sss Hc]|[[ids Hc]|[sss Hc]]].
    - unfold addBuildsetForSourceStampsWithDefaults in Hc.
      destruct (stampsWithDefaults sched sss) as [stamps|e];
        simpl in Hc; [eauto | discriminate].
    - unfold addBuildsetForChanges in Hc.
      destruct (getChanges db ids) as [rows|e];
        simpl in Hc; [eauto | discriminate].
    - eauto. }
  apply addBuildsetForSourceStamps_ok in Htail as [_ ->]. split.
  - apply merge_properties_scheduler.
  - intros key v. apply merge_properties_caller.
Qed.

Lemma scheduler_property_is_set_last_witness :
  ∃ call,
    addBuildsetForSourceStamps test_base.sched_n test_base.db_n "whynot"
      [SsId 91] false None test_base.props_with_scheduler 0 None = Ok call
    ∧ ab_properties call !! "scheduler" = Some (VStr "n", "Scheduler")
    ∧ ab_properties call !! "xxx" = Some (VStr "yyy", "TEST").
Proof.
  eexists. split; [vm_compute; reflexivity|].
  match goal with
  | |- ab_properties ?c !! _ = _ ∧ _ =>
      destruct (scheduler_property_is_set_last test_base.sched_n
                  test_base.db_n "whynot" false None
                  test_base.props_with_scheduler 0 None c) as [Hs Hkeep]
  end.
  - right. right. exists [SsId 91]. vm_compute. reflexivity.
  - split; [exact Hs|]. apply Hkeep; [discriminate | reflexivity].
Defined.

Lemma getChanges_rows db changeids rows :
  getChanges db changeids = Ok rows →
  Forall2 (fun id row => changeid row = id ∧ row ∈ changes db)
    changeids rows.
Proof.
  revert rows. induction changeids as [|id ids IH]; intros rows; simpl.
  - intros [= <-]. constructor.
  - unfold getChange.
    destruct (find _ (changes db)) as [row|] eqn:Hfind;
      simpl; [|discriminate].
    destruct (getChanges db ids) as [rest|e]; simpl; [|discriminate].
    intros [= <-]. constructor; [|apply IH; reflexivity].
    apply find_some in Hfind as [Hin Heq]. split.
    + apply Z.eqb_eq, Heq.
    + apply list_elem_of_In, Hin.
Qed.

Lemma last_change_highest best rows :
  let top := last_change best rows in
  top ∈ best :: rows
  ∧ ∀ row, row ∈ best :: rows → changeid row ≤ changeid top.
Proof.
  revert best. induction rows as [|r rows IH]; intros best; simpl.
  - split; [left|]. intros row Hrow.
    apply list_elem_of_singleton in Hrow as ->. lia.
  - destruct (IH (if changeid best <? changeid r then r else best))
      as [Hin Hmax].
    split.
    + apply elem_of_cons in Hin as [Heq|Hin].
      * rewrite Heq. destruct (changeid best <? changeid r);
          [right; left | left].
      * right. right. exact Hin.
    + intros row Hrow.
      assert (Hstep :
        changeid best ≤
          changeid (if changeid best <? changeid r then r else best)
        ∧ changeid r ≤
          changeid (if changeid best <? changeid r then r else best)).
      { destruct (Z.ltb_spec (changeid best) (changeid r)); lia. }
      assert (Hnew :
        changeid (if changeid best <? changeid r then r else best) ≤
        changeid
          (last_change (if changeid best <? changeid r then r else best)
             rows)).
      { apply Hmax. left. }
      apply elem_of_cons in Hrow as [->|Hrow]; [lia|].
      apply elem_of_cons in Hrow as [->|Hrow]; [lia|].
      apply Hmax. right. exact Hrow.
Qed.

Lemma changes_of_codebase_elem codebase rows row :
  row ∈ changes_of_codebase codebase rows ↔
  row ∈ rows ∧ ch_codebase row = codebase.
Proof.
  unfold changes_of_codebase.
  rewrite !list_elem_of_In, filter_In, bool_decide_eq_true. tauto.
Qed.

(** The sourcestamp of one configured codebase: its stub when no change
    belongs to the codebase, else the sourcestamp id of a change of the
    codebase whose change id no other change of the codebase exceeds. *)
Lemma sourcestamp_for_codebase_latest rows codebase cb :
  ((∀ row, row ∈ rows → ch_codebase row ≠ codebase)
   ∧ sourcestamp_for_codebase rows (codebase, cb) =
       SsDict (stub_sourcestamp codebase cb))
  ∨ (∃ top,
       top ∈ rows ∧ ch_codebase top = codebase
       ∧ (∀ row, row ∈ rows → ch_codebase row = codebase →
            changeid row ≤ changeid top)
       ∧ sourcestamp_for_codebase rows (codebase, cb) =
           SsId (sourcestampid top)).
Proof.
  unfold sourcestamp_for_codebase. simpl.
  destruct (changes_of_codebase codebase rows) as [|first rest] eqn:Hgroup.
  - left. split; [|reflexivity]. intros row Hrow Hcb.
    assert (row ∈ changes_of_codebase codebase rows) as Hin
      by (apply changes_of_codebase_elem; auto).
    rewrite Hgroup in Hin. apply not_elem_of_nil in Hin. exact Hin.
  - right. destruct (last_change_highest first rest) as [Hin Hmax].
    exists (last_change first rest).
    rewrite <- Hgroup in Hin.
    apply changes_of_codebase_elem in Hin as [Hin Hcb].
    split; [exact Hin|]. split; [exact Hcb|]. split; [|reflexivity].
    intros row Hrow Hrcb. apply Hmax. rewrite <- Hgroup.
    apply changes_of_codebase_elem. auto.
Qed.

(** C4: the change ids, in any order, are resolved to their changes; the
    sourcestamp list of the buildset has one entry per configured codebase,
    and the entry of a codebase that has changes among them is the
    sourcestamp id of the one with the highest change id (a codebase without
    changes gets its stub).  For the change ids [14, 15, 13] of one codebase
    with sourcestamp ids 11, 10, 12 the entry is sourcestamp 10; for
    [14, 12, 17, 16, 13, 15] over two of four codebases the entries are 914
    and 917 and two stubs. *)
Theorem addBuildsetForChanges_selects_latest
    (sched : Scheduler) (db : Db) (reason : string) (changeids : list Z)
    (waited_for : bool) (builderNames : option (list string))
    (properties : gmap string (PyValue * string))
    (priority : Z) (ext : option string) (call : AddBuildset) :
  (addBuildsetForChanges sched db reason changeids waited_for builderNames
     properties priority ext = Ok call →
   ∃ rows,
     Forall2 (fun id row => changeid row = id ∧ row ∈ changes db)
       changeids rows
     ∧ length (sourcestamps call) = length (codebases sched)
     ∧ ∀ i codebase cb,
         codebases sched !! i = Some (codebase, cb) →
         ((∀ row, row ∈ rows → ch_codebase row ≠ codebase)
          ∧ sourcestamps call !! i =
              Some (SsDict (stub_sourcestamp codebase cb)))
         ∨ (∃ top,
              top ∈ rows ∧ ch_codebase top = codebase
              ∧ (∀ row, row ∈ rows → ch_codebase row = codebase →
                   changeid row ≤ changeid top)
              ∧ sourcestamps call !! i = Some (SsId (sourcestampid top))))
  ∧ (∃ call,
       addBuildsetForChanges test_base.sched_cb test_base.db_cb "power"
         [14; 15; 13] false None ∅ 0 None = Ok call
       ∧ sourcestamps call = [SsId 10])
  ∧ (∃ call,
       addBuildsetForChanges test_base.sched_multiple test_base.db_multiple
         "power" [14; 12; 17; 16; 13; 15] true None ∅ 0 None = Ok call
       ∧ sourcestamps call =
           [SsId 914; SsId 917;
            SsDict {[ "branch" := VStr "stable";
                      "repository" := VStr "svn://C..";
                      "codebase" := VStr "cbC";
                      "project" := VStr "";
                      "revision" := VStr "12345" ]};
            SsDict {[ "branch" := VNone;
                      "repository" := VStr "svn://D..";
                      "codebase" := VStr "cbD";
                      "project" := VStr "";
                      "revision" := VNone ]}]).
Proof.
  split; [|split].
  - unfold addBuildsetForChanges.
    destruct (getChanges db changeids) as [rows|e] eqn:Hrows;
      simpl; [|discriminate].
    intros Htail. apply addBuildsetForSourceStamps_ok in Htail as [Hss _].
    exists rows. split; [apply getChanges_rows, Hrows|].
    rewrite Hss. split; [apply length_map|].
    intros i codebase cb Hi. rewrite list_lookup_fmap, Hi. simpl.
    destruct (sourcestamp_for_codebase_latest rows codebase cb)
      as [[Hnone ->]|(top & Hin & Hcb & Hmax & ->)].
    + left. auto.
    + right. exists top. auto.
  - eexists. split; vm_compute; reflexivity.
  - eexists. split; vm_compute; reflexivity.
Qed.

Lemma addBuildsetForChanges_selects_latest_witness :
  ∃ call rows,
    addBuildsetForChanges test_base.sched_cb test_base.db_cb "power"
      [14; 15; 13] false None ∅ 0 None = Ok call
    ∧ Forall2
        (fun id row => changeid row = id ∧ row ∈ changes test_base.db_cb)
        [14; 15; 13] rows
    ∧ length (sourcestamps call) = 1%nat
    ∧ ∀ i codebase cb,
        codebases test_base.sched_cb !! i = Some (codebase, cb) →
        ((∀ row, row ∈ rows → ch_codebase row ≠ codebase)
         ∧ sourcestamps call !! i =
             Some (SsDict (stub_sourcestamp codebase cb)))
        ∨ (∃ top,
             top ∈ rows ∧ ch_codebase top = codebase
             ∧ (∀ row, row ∈ rows → ch_codebase row = codebase →
                  changeid row ≤ changeid top)
             ∧ sourcestamps call !! i = Some (SsId (sourcestampid top))).
Proof.
  eexists.
  match goal with
  | |- ∃ rows, ?run = Ok ?c ∧ _ =>
      assert (Hrun : run = Ok c) by (vm_compute; reflexivity);
      destruct (addBuildsetForChanges_selects_latest test_base.sched_cb
                  test_base.db_cb "power" [14; 15; 13] false None ∅ 0 None c)
        as [Hgeneral _]
  end.
  destruct (Hgeneral Hrun) as (rows & Hrows & Hlen & Hsel).
  exists rows. split; [exact Hrun|]. split; [exact Hrows|].
  split; [exact Hlen|]. exact Hsel.
Defined.

Lemma getBuilderIds_known db names :
  (∀ builder, builder ∈ names → is_Some (builders db !! builder)) →
  ∃ ids, getBuilderIds db names = Ok ids ∧ length ids = length names.
Proof.
  induction names as [|builder rest IH]; intros Hknown; simpl.
  - exists []. split; reflexivity.
  - destruct (Hknown builder) as [id Hid]; [left|].
    destruct IH as (ids & Hids & Hlen).
    { intros b Hb. apply Hknown. right. exact Hb. }
    exists (id :: ids). unfold getBuilderId. rewrite Hid. simpl.
    rewrite Hids. simpl. rewrite Hlen. split; reflexivity.
Qed.

Lemma stampsWithDefaults_no_repository sched :
  codebases sched = [("", ∅)] →
  stampsWithDefaults sched [] = Ok [SsDict test_base.exp_no_repository].
Proof.
  intros Hcb. unfold stampsWithDefaults. rewrite Hcb.
  vm_compute. reflexivity.
Qed.

(** C5: with the codebases [{'': {}}] and no input sourcestamps,
    addBuildsetForSourceStampsWithDefaults issues a buildset as soon as its
    builder names are those of known builders (and, when they are given as
    an override, are not empty), and the sourcestamp list of that buildset
    is the single dictionary with repository '', branch None, revision None,
    codebase '' and project ''. *)
Theorem addBuildsetForSourceStampsWithDefaults_no_repository
    (sched : Scheduler) (db : Db) (reason : string) (waited_for : bool)
    (builderNames : option (list string))
    (properties : gmap string (PyValue * string))
    (priority : Z) (ext : option string) :
  codebases sched = [("", ∅)] →
  (∀ builder,
     builder ∈ resolve_builderNames sched builderNames
                 (merge_properties sched ∅ properties) →
     is_Some (builders db !! builder)) →
  builderNames ≠ Some [] →
  ∃ call,
    addBuildsetForSourceStampsWithDefaults sched db reason [] waited_for
      builderNames properties priority ext = Ok call
    ∧ sourcestamps call =
        [SsDict {[ "repository" := VStr "";
                   "branch" := VNone;
                   "revision" := VNone;
                   "codebase" := VStr "";
                   "project" := VStr "" ]}].
Proof.
  intros Hcb Hknown Hnames.
  unfold addBuildsetForSourceStampsWithDefaults.
  rewrite (stampsWithDefaults_no_repository sched Hcb). simpl.
  unfold addBuildsetForSourceStamps.
  assert (Hnochange :
    merge_change_properties
      (changes_of_sourcestamps db [SsDict test_base.exp_no_repository]) = ∅).
  { unfold changes_of_sourcestamps. simpl.
    induction (changes db) as [|row rows IH]; [reflexivity | exact IH]. }
  rewrite Hnochange.
  destruct (getBuilderIds_known db _ Hknown) as (ids & Hids & Hlen).
  rewrite Hids. simpl.
  destruct (bool_decide (ids = []) && bool_decide (is_Some builderNames))
    eqn:Hempty.
  - exfalso. apply andb_true_iff in Hempty as [Hnil Hsome].
    apply bool_decide_eq_true in Hnil, Hsome. subst ids.
    destruct Hsome as [names ->]. simpl in Hlen. unfold resolve_builderNames in Hlen.
    destruct names as [|n names]; [congruence|].
    simpl in Hlen. destruct (decide_rel elem_of n names) as [Hin|Hnotin].
    + assert (n ∈ remove_dups names) as Hin'
        by (apply elem_of_remove_dups; exact Hin).
      destruct (remove_dups names); [|discriminate].
      apply not_elem_of_nil in Hin'. exact Hin'.
    + discriminate.
  - eexists. split; reflexivity.
Qed.

Lemma addBuildsetForSourceStampsWithDefaults_no_repository_witness :
  codebases test_base.sched_n = [("", ∅)]
  ∧ ∃ call,
      addBuildsetForSourceStampsWithDefaults test_base.sched_n
        test_base.db_n "power" [] false None ∅ 0 None = Ok call
      ∧ sourcestamps call = [SsDict test_base.exp_no_repository]
      ∧ builderids call = [1].
Proof.
  split; [reflexivity|].
  destruct (addBuildsetForSourceStampsWithDefaults_no_repository
              test_base.sched_n test_base.db_n "power" false None ∅ 0 None)
    as (call & Hcall & Hss).
  - reflexivity.
  - intros builder Hb. vm_compute in Hb.
    apply list_elem_of_singleton in Hb as ->. vm_compute. eauto.
  - discriminate.
  - exists call. split; [exact Hcall|]. split; [exact Hss|].
    vm_compute in Hcall. injection Hcall as <-. reflexivity.
Defined.

End Buildsets.

(** ** Scheduler: change consumption *)

Section ChangeConsumption.
Import base.

Lemma and_then_assoc a b c :
  and_then (and_then a b) c = and_then a (and_then b c).
Proof. unfold and_then. simpl. rewrite <- !(assoc_L (++)). reflexivity. Qed.

Lemma and_then_nothing st : and_then st nothing_consumed = st.
Proof.
  destruct st as [d l]. unfold and_then. simpl.
  rewrite !app_nil_r. reflexivity.
Qed.

(** One notification adds to what was consumed before, without looking at
    it. *)
Lemma changeCallback_and_then consumer change st :
  _changeCallback consumer change st =
  and_then st (_changeCallback consumer change nothing_consumed).
Proof.
  unfold _changeCallback.
  destruct (passes_change_filter consumer change) as [[|]|e].
  - destruct (importance consumer change) as [important|e].
    + destruct (onlyImportant consumer && negb important).
      * symmetry. apply and_then_nothing.
      * unfold and_then, deliver. simpl. rewrite app_nil_r. reflexivity.
    + unfold and_then, log_err. simpl. rewrite app_nil_r. reflexivity.
  - symmetry. apply and_then_nothing.
  - unfold and_then, log_err. simpl. rewrite app_nil_r. reflexivity.
Qed.

Lemma consume_and_then consumer getChange msgs st :
  consume consumer getChange msgs st =
  and_then st (consume consumer getChange msgs nothing_consumed).
Proof.
  revert st. induction msgs as [|id msgs IH]; intros st.
  - symmetry. apply and_then_nothing.
  - unfold consume in *. simpl.
    rewrite IH.
    rewrite (IH (_changeCallback consumer (getChange id) nothing_consumed)).
    rewrite <- and_then_assoc.
    rewrite <- changeCallback_and_then. reflexivity.
Qed.

Lemma consume_app consumer getChange pre post st :
  consume consumer getChange (pre ++ post) st =
  consume consumer getChange post (consume consumer getChange pre st).
Proof. unfold consume. apply foldl_app. Qed.

(** C7: when [fileIsImportant] raises on a change that the filter lets
    through, the error is logged and the handler is not invoked for the
    change: the notification leaves the deliveries as a declined change
    does.  The other notifications of the stream are handled as if this one
    had not arrived: they lead to the same deliveries, and to the same log
    but for the one error. *)
Theorem fileIsImportant_exception_drops_change
    (consumer : Consumer) (getChange : Z → Change)
    (f : Change → Result bool) (e : PyExn)
    (pre post : list Z) (id : Z) (st : Consumed) :
  fileIsImportant consumer = Some f →
  passes_change_filter consumer (getChange id) = Ok true →
  f (getChange id) = Raise e →
  _changeCallback consumer (getChange id) st =
    {| delivered := delivered st; logged := logged st ++ [e] |}
  ∧ (∀ declining,
       passes_change_filter declining (getChange id) = Ok false →
       delivered (_changeCallback consumer (getChange id) st) =
       delivered (_changeCallback declining (getChange id) st))
  ∧ delivered (consume consumer getChange (pre ++ id :: post) st) =
    delivered (consume consumer getChange (pre ++ post) st)
  ∧ ∃ before after,
      logged (consume consumer getChange (pre ++ id :: post) st) =
        before ++ e :: after
      ∧ logged (consume consumer getChange (pre ++ post) st) =
        before ++ after.
Proof.
  intros Hf Hpass Hraise.
  assert (Hstep : ∀ st',
    _changeCallback consumer (getChange id) st' =
    {| delivered := delivered st'; logged := logged st' ++ [e] |}).
  { intros st'. unfold _changeCallback, importance.
    rewrite Hpass, Hf, Hraise. reflexivity. }
  split; [apply Hstep|]. split.
  - intros declining Hdecl. rewrite Hstep. unfold _changeCallback.
    rewrite Hdecl. reflexivity.
  - assert (Hstream :
      consume consumer getChange (pre ++ id :: post) st =
      and_then
        {| delivered := delivered (consume consumer getChange pre st);
           logged := logged (consume consumer getChange pre st) ++ [e] |}
        (consume consumer getChange post nothing_consumed)).
    { rewrite consume_app.
      change (id :: post) with ([id] ++ post). rewrite consume_app.
      rewrite consume_and_then. f_equal.
      unfold consume at 1. simpl. apply Hstep. }
    assert (Hwithout :
      consume consumer getChange (pre ++ post) st =
      and_then (consume consumer getChange pre st)
        (consume consumer getChange post nothing_consumed)).
    { rewrite consume_app. apply consume_and_then. }
    rewrite Hstream, Hwithout. split; [reflexivity|].
    exists (logged (consume consumer getChange pre st)),
           (logged (consume consumer getChange post nothing_consumed)).
    simpl. rewrite <- (assoc_L (++)). split; reflexivity.
Qed.

Lemma fileIsImportant_exception_drops_change_witness :
  let getChange := fun _ : Z => test_base.fake_change in
  let consumer := test_base.consumer_raising in
  consume consumer getChange [12934] nothing_consumed =
    {| delivered := []; logged := [UserError 0] |}
  ∧ delivered (consume consumer getChange ([] ++ 12934 :: [12935])
                 nothing_consumed) =
    delivered (consume consumer getChange ([] ++ [12935]) nothing_consumed).
Proof.
  intros getChange consumer.
  destruct (fileIsImportant_exception_drops_change consumer getChange
              test_base.zero_division (UserError 0) [] [12935] 12934
              nothing_consumed)
    as (Hlogged & _ & Hsame & _); try reflexivity.
  split; [exact Hlogged | exact Hsame].
Defined.

End ChangeConsumption.

(** ** Scheduler: activation *)

Section Activation.
Import base.

Lemma step_never_activated me other obj w e :
  other ≠ me → e ≠ OtherReleases other →
  never_activated me other obj w →
  never_activated me other obj (step w e).
Proof.
  intros Hother Hrel (Hme & Hobj & Hclaim & Hinactive & Hcalls).
  destruct w as [tbl i]. simpl in *. unfold never_activated.
  destruct e as [| | |master|master]; simpl.
  - unfold startService. simpl.
    destruct (state i) eqn:Hstate; simpl; auto.
  - unfold poll. simpl. destruct (state i) eqn:Hstate; simpl; auto.
    unfold claim. rewrite Hobj, Hclaim, Hme.
    rewrite bool_decide_eq_false_2 by exact Hother. simpl. auto.
  - unfold stopService. simpl. unfold isActive in Hinactive.
    destruct (state i) eqn:Hstate; simpl; auto. discriminate.
  - unfold claim. rewrite Hobj, Hclaim. simpl. auto.
  - unfold release. rewrite Hobj, Hclaim.
    rewrite bool_decide_eq_false_2 by congruence. auto.
Qed.

Lemma run_never_activated me other obj events w :
  other ≠ me →
  (∀ e, e ∈ events → e ≠ OtherReleases other) →
  never_activated me other obj w →
  never_activated me other obj (run w events).
Proof.
  intros Hother. revert w.
  induction events as [|e events IH]; intros w Hnorel Hinv; [exact Hinv|].
  unfold run. simpl. apply IH.
  - intros e' He'. apply Hnorel. right. exact He'.
  - apply step_never_activated; [exact Hother | | exact Hinv].
    apply Hnorel. left.
Qed.

Lemma first_release other events :
  (∀ e, e ∈ events → e ≠ OtherReleases other)
  ∨ ∃ pre post,
      events = pre ++ OtherReleases other :: post
      ∧ ∀ e, e ∈ pre → e ≠ OtherReleases other.
Proof.
  induction events as [|e events IH].
  - left. intros e He. apply not_elem_of_nil in He. contradiction.
  - assert (Hdec : e = OtherReleases other ∨ e ≠ OtherReleases other).
    { destruct e as [| | |m|m]; try (right; discriminate).
      destruct (decide (m = other)) as [->|Hne];
        [left; reflexivity | right; congruence]. }
    destruct Hdec as [->|Hne].
    + right. exists [], events. split; [reflexivity|].
      intros e He. apply not_elem_of_nil in He. contradiction.
    + destruct IH as [Hnone|(pre & post & -> & Hpre)].
      * left. intros e' He'. apply elem_of_cons in He' as [->|He']; auto.
      * right. exists (e :: pre), post. split; [reflexivity|].
        intros e' He'. apply elem_of_cons in He' as [->|He']; auto.
Qed.

Lemma run_polls_polling w n :
  state (inst w) = POLLING →
  (∃ other, claims w !! objectid (inst w) = Some other
            ∧ other ≠ masterid (inst w)) →
  run w (replicate n Poll) = w.
Proof.
  intros Hstate (other & Hclaim & Hother).
  assert (Hpoll : poll w = w).
  { unfold poll. rewrite Hstate. unfold claim. rewrite Hclaim.
    rewrite bool_decide_eq_false_2 by exact Hother.
    destruct w as [tbl i]. reflexivity. }
  induction n as [|n IH]; [reflexivity|].
  unfold run in *. simpl. rewrite Hpoll. exact IH.
Qed.

(** C8: as long as the master that owns the claim does not release it, an
    instance on another master that is started, polls any number of times,
    or is stopped, never has its activate() hook invoked and never reports
    itself active, whatever else happens to the claim table.  So when
    activate() has been invoked, the owner released the claim before, and
    nothing was activated up to that release.  After the release the next
    poll of the started instance invokes activate() once and the instance is
    active. *)
Theorem no_activation_while_claimed_elsewhere
    (me other obj : Z) (tbl : gmap Z Z) (events : list Event) :
  other ≠ me →
  tbl !! obj = Some other →
  let w0 := {| claims := tbl; inst := fresh me obj |} in
  ((∀ e, e ∈ events → e ≠ OtherReleases other) →
   activate_calls (inst (run w0 events)) = 0%nat
   ∧ isActive (inst (run w0 events)) = false
   ∧ claims (run w0 events) !! obj = Some other)
  ∧ ((0 < activate_calls (inst (run w0 events)))%nat →
     ∃ pre post,
       events = pre ++ OtherReleases other :: post
       ∧ activate_calls (inst (run w0 pre)) = 0%nat
       ∧ isActive (inst (run w0 pre)) = false)
  ∧ (∀ n,
       let w := run w0 (Start :: replicate n Poll
                          ++ [OtherReleases other; Poll]) in
       activate_calls (inst w) = 1%nat
       ∧ isActive (inst w) = true
       ∧ claims w !! obj = Some me).
Proof.
  intros Hother Hclaim w0.
  assert (Hinit : never_activated me other obj w0).
  { unfold never_activated, w0. simpl. auto. }
  assert (Hquiet : ∀ evs,
    (∀ e, e ∈ evs → e ≠ OtherReleases other) →
    activate_calls (inst (run w0 evs)) = 0%nat
    ∧ isActive (inst (run w0 evs)) = false
    ∧ claims (run w0 evs) !! obj = Some other).
  { intros evs Hnorel.
    destruct (run_never_activated me other obj evs w0 Hother Hnorel Hinit)
      as (_ & _ & Hc & Hi & Ha).
    auto. }
  split; [apply Hquiet|]. split.
  - intros Hcalled.
    destruct (first_release other events)
      as [Hnone|(pre & post & Hevents & Hpre)].
    + destruct (Hquiet events Hnone) as [Hzero _]. lia.
    + exists pre, post. split; [exact Hevents|].
      destruct (Hquiet pre Hpre) as (Hzero & Hinactive & _). auto.
  - intros n w. unfold w.
    change (Start :: replicate n Poll ++ [OtherReleases other; Poll])
      with ([Start] ++ replicate n Poll ++ [OtherReleases other; Poll]).
    unfold run. rewrite !foldl_app. fold (run w0 [Start]).
    set (w1 := run w0 [Start]).
    assert (Hw1 : w1 = {| claims := tbl;
                          inst := set_state POLLING (fresh me obj) |})
      by reflexivity.
    fold (run w1 (replicate n Poll)).
    rewrite run_polls_polling.
    + rewrite Hw1. simpl. unfold release, poll. simpl.
      rewrite Hclaim. rewrite bool_decide_eq_true_2 by reflexivity.
      unfold claim. rewrite lookup_delete_eq. simpl.
      rewrite lookup_insert_eq. auto.
    + rewrite Hw1. reflexivity.
    + rewrite Hw1. simpl. exists other. auto.
Qed.

Lemma no_activation_while_claimed_elsewhere_witness :
  let w0 := test_base.claimed_elsewhere in
  let w := run w0 [Start; Poll; Poll; Poll] in
  activate_calls (inst w) = 0%nat
  ∧ isActive (inst w) = false
  ∧ claims w !! test_base.OBJECTID = Some test_base.OTHER_MASTER_ID
  ∧ isActive
      (inst (run w0 [Start; Poll; OtherReleases test_base.OTHER_MASTER_ID;
                     Poll])) = true.
Proof.
  intros w0 w.
  destruct (no_activation_while_claimed_elsewhere
              test_base.MASTER_ID test_base.OTHER_MASTER_ID
              test_base.OBJECTID
              {[ test_base.OBJECTID := test_base.OTHER_MASTER_ID ]}
              [Start; Poll; Poll; Poll])
    as (Hquiet & _ & Hafter); [discriminate | reflexivity |].
  destruct Hquiet as (Hcalls & Hinactive & Hclaim).
  { intros e He. repeat (apply elem_of_cons in He as [->|He];
                         [discriminate|]).
    apply not_elem_of_nil in He. contradiction. }
  destruct (Hafter 1%nat) as (_ & Hactive & _).
  split; [exact Hcalls|]. split; [exact Hinactive|].
  split; [exact Hclaim | exact Hactive].
Defined.

End Activation.

(** ** Report generators: the other functions of utils.py *)

Section GeneratorModes.
Import results utils.

(** When a message is needed: one of the configured modes asks for it. *)
Lemma is_message_needed_by_results_true self build :
  is_message_needed_by_results self build = true ↔
  ("change" ∈ mode self
     ∧ ∃ p, prev_build build = Some p
            ∧ utils.results p ≠ utils.results build)
  ∨ ("failing" ∈ mode self ∧ utils.results build = FAILURE)
  ∨ ("passing" ∈ mode self ∧ utils.results build = SUCCESS)
  ∨ ("problem" ∈ mode self ∧ new_failure build)
  ∨ ("warnings" ∈ mode self ∧ utils.results build = WARNINGS)
  ∨ ("exception" ∈ mode self ∧ utils.results build = EXCEPTION)
  ∨ ("cancelled" ∈ mode self ∧ utils.results build = CANCELLED).
Proof.
  unfold is_message_needed_by_results.
  pose proof (problem_branch self build) as Hproblem.
  assert (Hchange :
    in_mode "change" self
      && prev_differs (prev_build build) (utils.results build) = true ↔
    "change" ∈ mode self
    ∧ ∃ p, prev_build build = Some p
           ∧ utils.results p ≠ utils.results build).
  { rewrite andb_true_iff, in_mode_true, prev_differs_true. tauto. }
  assert (Hmode : ∀ m code,
    in_mode m self && (utils.results build =? code) = true ↔
    m ∈ mode self ∧ utils.results build = code).
  { intros m code. rewrite andb_true_iff, in_mode_true, Z.eqb_eq. tauto. }
  pose proof (Hmode "failing" FAILURE) as Hfailing.
  pose proof (Hmode "passing" SUCCESS) as Hpassing.
  pose proof (Hmode "warnings" WARNINGS) as Hwarnings.
  pose proof (Hmode "exception" EXCEPTION) as Hexception.
  pose proof (Hmode "cancelled" CANCELLED) as Hcancelled.
  clear Hmode.
  destruct (in_mode "change" self && _); [tauto|].
  destruct (in_mode "failing" self && _); [tauto|].
  destruct (in_mode "passing" self && _); [tauto|].
  destruct (in_mode "problem" self && _ && _); [tauto|].
  destruct (in_mode "warnings" self && _); [tauto|].
  destruct (in_mode "exception" self && _); [tauto|].
  destruct (in_mode "cancelled" self && _); [tauto|].
  split; [discriminate|].
  intros [H|[H|[H|[H|[H|[H|H]]]]]].
  - apply Hchange in H. discriminate.
  - apply Hfailing in H. discriminate.
  - apply Hpassing in H. discriminate.
  - apply Hproblem in H. discriminate.
  - apply Hwarnings in H. discriminate.
  - apply Hexception in H. discriminate.
  - apply Hcancelled in H. discriminate.
Qed.

(** X1: configuring more modes never takes a message away: when every mode
    of a generator is also a mode of a second one, each build that needs a
    message for the first needs one for the second. *)
Theorem is_message_needed_by_results_monotone
    (self other : BuildStatusGeneratorMixin) (build : Build) :
  (∀ m, m ∈ mode self → m ∈ mode other) →
  is_message_needed_by_results self build = true →
  is_message_needed_by_results other build = true.
Proof.
  intros Hsub. rewrite !is_message_needed_by_results_true.
  intros [H|[H|[H|[H|[H|[H|H]]]]]]; destruct H as [Hm Hc];
    apply Hsub in Hm; tauto.
Qed.

Lemma is_message_needed_by_results_monotone_witness :
  let self := {| mode := ["failing"] |} in
  let other := {| mode := ["passing"; "failing"] |} in
  let build := {| utils.results := FAILURE; prev_build := None |} in
  is_message_needed_by_results other build = true.
Proof.
  intros self other build.
  apply (is_message_needed_by_results_monotone self other build).
  - intros m Hm. simpl in *. apply list_elem_of_singleton in Hm as ->.
    right. left.
  - reflexivity.
Defined.

(** X2: for a build without a previous build the modes "change" and
    "problem" ask for nothing: the answer is the one of the generator
    without these two modes, and it is false when no other mode is
    configured. *)
Theorem is_message_needed_by_results_first_build
    (self : BuildStatusGeneratorMixin) (build : Build) :
  prev_build build = None →
  is_message_needed_by_results self build =
    is_message_needed_by_results
      {| mode := List.filter
                   (fun m => negb (bool_decide (m = "change"))
                             && negb (bool_decide (m = "problem")))
                   (mode self) |}
      build
  ∧ ((∀ m, m ∈ mode self → m = "change" ∨ m = "problem") →
     is_message_needed_by_results self build = false).
Proof.
  intros Hprev.
  assert (Hkeep : ∀ m, m ≠ "change" → m ≠ "problem" →
    in_mode m {| mode := List.filter
                   (fun m => negb (bool_decide (m = "change"))
                             && negb (bool_decide (m = "problem")))
                   (mode self) |} = in_mode m self).
  { intros m Hc Hp. unfold in_mode. simpl. apply bool_decide_ext.
    rewrite !list_elem_of_In, filter_In, andb_true_iff, !negb_true_iff,
      !bool_decide_eq_false. tauto. }
  split.
  - unfold is_message_needed_by_results. rewrite Hprev. simpl.
    rewrite !andb_false_r.
    rewrite !Hkeep by discriminate. reflexivity.
  - intros Honly. apply not_true_is_false.
    rewrite is_message_needed_by_results_true. unfold new_failure.
    rewrite Hprev.
    intros [H|[H|[H|[H|[H|[H|H]]]]]]; destruct H as [Hm Hc].
    + destruct Hc as (p & Hp & _). discriminate.
    + destruct (Honly _ Hm); discriminate.
    + destruct (Honly _ Hm); discriminate.
    + destruct Hc as (_ & p & Hp & _). discriminate.
    + destruct (Honly _ Hm); discriminate.
    + destruct (Honly _ Hm); discriminate.
    + destruct (Honly _ Hm); discriminate.
Qed.

Lemma is_message_needed_by_results_first_build_witness :
  let self := {| mode := ["change"; "problem"] |} in
  let build := {| utils.results := FAILURE; prev_build := None |} in
  is_message_needed_by_results self build = false.
Proof.
  intros self build.
  destruct (is_message_needed_by_results_first_build self build)
    as [_ Hnone]; [reflexivity|].
  apply Hnone. intros m Hm. simpl in Hm.
  apply elem_of_cons in Hm as [->|Hm]; [left; reflexivity|].
  apply list_elem_of_singleton in Hm as ->. right. reflexivity.
Defined.

(** X3: the mode "all", given as a string, looks at the result only: a
    message is needed exactly for the results FAILURE, SUCCESS, WARNINGS,
    EXCEPTION and CANCELLED, whatever the previous build was; a build that
    was skipped or is to be retried needs none.  The mode "warnings" given
    as a string reports failures and warnings, given in a list it reports
    warnings only. *)
Theorem shortcut_modes_look_at_result_only (build : Build) :
  (is_message_needed_by_results (utils.__init__ (ModeStr "all")) build = true
   ↔ utils.results build ∈ [FAILURE; SUCCESS; WARNINGS; EXCEPTION; CANCELLED])
  ∧ (is_message_needed_by_results (utils.__init__ (ModeStr "warnings")) build
     = true ↔ utils.results build ∈ [FAILURE; WARNINGS])
  ∧ (is_message_needed_by_results
       (utils.__init__ (ModeSeq ["warnings"])) build = true
     ↔ utils.results build = WARNINGS).
Proof.
  unfold is_message_needed_by_results, utils.__init__, in_mode. simpl.
  rewrite !elem_of_cons, elem_of_nil.
  destruct (Z.eqb_spec (utils.results build) FAILURE) as [->|Hf];
    [simpl; split; [|split]; try tauto; split;
       (discriminate || (intros H; discriminate H) || tauto)|].
  destruct (Z.eqb_spec (utils.results build) SUCCESS) as [->|Hs];
    [simpl; split; [|split]; try tauto; split; intros H;
       try discriminate; try tauto;
       destruct H as [H|[H|H]]; try discriminate; contradiction|].
  destruct (Z.eqb_spec (utils.results build) WARNINGS) as [->|Hw];
    [simpl; tauto|].
  destruct (Z.eqb_spec (utils.results build) EXCEPTION) as [->|He];
    [simpl; split; [|split]; try tauto; split; intros H;
       try discriminate; try tauto;
       destruct H as [H|[H|H]]; try discriminate; contradiction|].
  destruct (Z.eqb_spec (utils.results build) CANCELLED) as [->|Hc];
    [simpl; split; [|split]; try tauto; split; intros H;
       try discriminate; try tauto;
       destruct H as [H|[H|H]]; try discriminate; contradiction|].
  simpl. split; [|split]; split; try discriminate; tauto.
Qed.

End GeneratorModes.

Section GeneratorMerges.
Import results utils.

Lemma merge_msgtype_value self t new :
  (_merge_msgtype self t new).1.1 =
  match t with Some _ => t | None => new end.
Proof.
  unfold _merge_msgtype. destruct new as [n|], t as [o|]; simpl; try done.
  destruct (bool_decide (o = n)); reflexivity.
Qed.

Lemma merged_msgtype_first self t0 types :
  foldl (fun t new => (_merge_msgtype self t new).1.1) t0 types =
  head (omap id (t0 :: types)).
Proof.
  revert t0. induction types as [|new types IH]; intros t0.
  - destruct t0; reflexivity.
  - simpl foldl. rewrite IH, merge_msgtype_value.
    destruct t0 as [o|]; [reflexivity|]. destruct new; reflexivity.
Qed.

(** X4: merging the message types of several builds one after the other
    keeps the first type that is not None.  A build is accepted (the flag is
    True) exactly when its type is not None and is that first type; a
    warning is logged exactly for a type that is not None and differs from
    it. *)
Theorem merge_msgtype_first_type_wins
    (self : BuildStatusGeneratorMixin)
    (pre : list (option string)) (new : option string) :
  let merged :=
    foldl (fun t new => (_merge_msgtype self t new).1.1) None in
  merged (pre ++ [new]) = head (omap id (pre ++ [new]))
  ∧ ((_merge_msgtype self (merged pre) new).1.2 = true ↔
     ∃ s, new = Some s ∧ head (omap id (pre ++ [new])) = Some s)
  ∧ ((_merge_msgtype self (merged pre) new).2 ≠ [] ↔
     ∃ s first, new = Some s ∧ head (omap id pre) = Some first ∧ first ≠ s).
Proof.
  intros merged. unfold merged.
  rewrite !merged_msgtype_first. change (omap id (None :: ?l)) with (omap id l).
  split; [reflexivity|].
  rewrite omap_app. csimpl.
  destruct (omap id pre) as [|first rest] eqn:Hpre; simpl.
  - destruct new as [s|]; simpl.
    + split; [split; eauto|]. split; [congruence|].
      intros (s' & first & _ & Hfirst & _). discriminate.
    + split; [split; [discriminate | intros (s & Hs & _); discriminate]|].
      split; [congruence | intros (s & f & Hs & _); discriminate].
  - destruct new as [s|]; simpl.
    + destruct (decide (first = s)) as [->|Hne].
      * rewrite bool_decide_eq_true_2 by reflexivity. simpl.
        split; [split; eauto|]. split; [congruence|].
        intros (s' & f & [= <-] & [= <-] & Hne). congruence.
      * rewrite bool_decide_eq_false_2 by exact Hne. simpl.
        split.
        -- split; [discriminate|]. intros (s' & [= <-] & [= Heq]). congruence.
        -- split; [|discriminate]. intros _. exists s, first. auto.
    + split; [split; [discriminate | intros (s & Hs & _); discriminate]|].
      split; [congruence | intros (s & f & Hs & _); discriminate].
Qed.

(** X5: merging the subjects of several builds one after the other gives
    the first subject that is not None, whatever merged subject one starts
    from that is None. *)
Theorem merge_subject_first_subject_wins
    (subject : option string) (subjects : list (option string)) :
  foldl _merge_subject subject subjects = head (omap id (subject :: subjects)).
Proof.
  revert subject. induction subjects as [|new subjects IH]; intros subject.
  - destruct subject; reflexivity.
  - simpl foldl. rewrite IH.
    destruct subject as [s|]; [reflexivity|]. destruct new; reflexivity.
Qed.

Lemma append_assoc (a b c : string) : (a +:+ b) +:+ c = a +:+ (b +:+ c).
Proof.
  induction a as [|x a IH]; [reflexivity|].
  change (String x ((a +:+ b) +:+ c) = String x (a +:+ (b +:+ c))).
  f_equal. exact IH.
Qed.

Lemma append_empty_r (a : string) : a +:+ "" = a.
Proof.
  induction a as [|x a IH]; [reflexivity|].
  change (String x (a +:+ "") = String x a). f_equal. exact IH.
Qed.

Lemma merged_body_from_str self acc bodies :
  foldl (fun b new => (_merge_body self b new).1.1) (VStr acc) bodies =
  VStr (acc +:+ join (omap as_str bodies)).
Proof.
  revert acc. induction bodies as [|new bodies IH]; intros acc; simpl.
  - rewrite append_empty_r. reflexivity.
  - destruct new; csimpl; rewrite IH; try reflexivity.
    unfold join. simpl. rewrite append_assoc. reflexivity.
Qed.

Lemma merged_body_from_list self acc bodies :
  foldl (fun b new => (_merge_body self b new).1.1) (VList acc) bodies =
  VList (acc ++ concat (omap as_list bodies)).
Proof.
  revert acc. induction bodies as [|new bodies IH]; intros acc; simpl.
  - rewrite app_nil_r. reflexivity.
  - destruct new; csimpl; rewrite IH; try reflexivity.
    rewrite <- (assoc_L (++)). reflexivity.
Qed.

Lemma merged_body_from_other self first bodies :
  first ≠ VNone → as_str first = None → as_list first = None →
  foldl (fun b new => (_merge_body self b new).1.1) first bodies = first.
Proof.
  intros Hnone Hstr Hlist.
  induction bodies as [|new bodies IH]; simpl; [reflexivity|].
  destruct first; try congruence; try discriminate;
    destruct new; simpl; exact IH.
Qed.

(** X6: merging the bodies of several builds one after the other, from
    None: when the first body that is not None is a string, the result is
    the concatenation of all the string bodies, in order, and every other
    body is left out; when it is a list, the result is the concatenation of
    all the list bodies; when it is of another type it is the result, and
    every later body is left out. *)
Theorem merge_body_in_turn
    (self : BuildStatusGeneratorMixin) (bodies : list PyValue) :
  let merged :=
    foldl (fun b new => (_merge_body self b new).1.1) VNone bodies in
  match head (omap not_None bodies) with
  | None => merged = VNone
  | Some (VStr _) => merged = VStr (join (omap as_str bodies))
  | Some (VList _) => merged = VList (concat (omap as_list bodies))
  | Some first => merged = first
  end.
Proof.
  induction bodies as [|new bodies IH]; simpl; [reflexivity|].
  destruct new; csimpl;
    try exact IH;
    try (apply merged_body_from_other; done).
  - apply (merged_body_from_str self s bodies).
  - apply (merged_body_from_list self items bodies).
Qed.

Lemma fill_in_union {V : Type} (value new_value : gmap string V) :
  fill_in value new_value = value ∪ new_value.
Proof.
  unfold fill_in.
  apply (map_fold_weak_ind (fun r m => r = value ∪ m)).
  - rewrite (right_id_L ∅ (∪)). reflexivity.
  - intros vkey vvalue m r Hfresh ->.
    destruct ((value ∪ m) !! vkey) as [x|] eqn:Hvkey.
    + apply lookup_union_Some_raw in Hvkey as [Hv|[_ Hm]]; [|congruence].
      apply map_eq. intros k. rewrite !lookup_union.
      destruct (decide (vkey = k)) as [->|Hne].
      * rewrite Hv, Hfresh, lookup_insert_eq. reflexivity.
      * rewrite lookup_insert_ne by exact Hne. reflexivity.
    + apply lookup_union_None in Hvkey as [Hv Hm].
      apply insert_union_r, Hv.
Qed.

Lemma merge_extra_info_union_with info new_info :
  (_merge_extra_info (Some info) (Some new_info)).1 =
  Some (union_with (fun value new_value => Some (value ∪ new_value))
          info new_info).
Proof.
  unfold _merge_extra_info. simpl. f_equal.
  apply (map_fold_weak_ind
           (fun r m => r = union_with
                             (fun value new_value => Some (value ∪ new_value))
                             info m)).
  - apply map_eq. intros k. rewrite lookup_union_with, lookup_empty.
    destruct (info !! k); reflexivity.
  - intros key new_value m r Hfresh ->.
    assert (Hkey :
      union_with (fun value new_value => Some (value ∪ new_value)) info m
        !! key = info !! key).
    { rewrite lookup_union_with, Hfresh. destruct (info !! key); reflexivity. }
    rewrite Hkey. apply map_eq. intros k.
    rewrite (lookup_union_with _ info (<[key:=new_value]> m) k).
    destruct (info !! key) as [value|] eqn:Hinfo;
      destruct (decide (key = k)) as [<-|Hne].
    + rewrite !lookup_insert_eq, Hinfo, fill_in_union. reflexivity.
    + rewrite !lookup_insert_ne by exact Hne.
      apply lookup_union_with.
    + rewrite !lookup_insert_eq, Hinfo. reflexivity.
    + rewrite !lookup_insert_ne by exact Hne.
      apply lookup_union_with.
Qed.

(** X7: in the merged extra information no entry of the earlier
    information is overwritten and every entry of the later one that was
    missing is filled in: the value under a key and a nested key is the
    earlier one when there is one, else the later one.  The merge always
    reports success, and merging with None changes nothing. *)
Theorem merge_extra_info_first_writer_wins
    (info new_info : gmap string (gmap string PyValue))
    (key vkey : string) :
  (∃ merged,
     _merge_extra_info (Some info) (Some new_info) = (Some merged, true)
     ∧ lookup2 merged key vkey =
         match lookup2 info key vkey with
         | Some x => Some x
         | None => lookup2 new_info key vkey
         end
     ∧ dom merged = dom info ∪ dom new_info)
  ∧ _merge_extra_info None (Some new_info) = (Some new_info, true)
  ∧ _merge_extra_info (Some info) None = (Some info, true).
Proof.
  split; [|split; reflexivity].
  pose proof (merge_extra_info_union_with info new_info) as Hmerged.
  destruct (_merge_extra_info (Some info) (Some new_info))
    as [merged flag] eqn:Hcall.
  assert (flag = true) as -> by (unfold _merge_extra_info in Hcall;
                                 injection Hcall; auto).
  simpl in Hmerged. subst merged. eexists. split; [reflexivity|]. split.
  - unfold lookup2. rewrite lookup_union_with.
    destruct (info !! key) as [value|], (new_info !! key) as [new_value|];
      simpl; try reflexivity.
    + rewrite lookup_union. destruct (value !! vkey), (new_value !! vkey);
        reflexivity.
    + destruct (value !! vkey); reflexivity.
  - apply set_eq. intros k.
    rewrite elem_of_union, !elem_of_dom, lookup_union_with.
    destruct (info !! k), (new_info !! k); simpl; unfold is_Some;
      split; eauto; intros [[x Hx]|[x Hx]]; discriminate.
Qed.

Lemma union_with_union_assoc (a b c : gmap string (gmap string PyValue)) :
  union_with (fun v nv => Some (v ∪ nv))
    (union_with (fun v nv => Some (v ∪ nv)) a b) c =
  union_with (fun v nv => Some (v ∪ nv)) a
    (union_with (fun v nv => Some (v ∪ nv)) b c).
Proof.
  apply map_eq. intros k. rewrite !lookup_union_with.
  destruct (a !! k), (b !! k), (c !! k); simpl; try reflexivity.
  rewrite (assoc_L (∪)). reflexivity.
Qed.

(** X8: merging extra information is associative, and merging the same
    information in a second time changes nothing: the merged information of
    several builds does not depend on how the merges are grouped, and a
    build reported twice adds nothing. *)
Theorem merge_extra_info_associative_idempotent
    (a b c : option (gmap string (gmap string PyValue))) :
  (_merge_extra_info (_merge_extra_info a b).1 c).1 =
  (_merge_extra_info a (_merge_extra_info b c).1).1
  ∧ (_merge_extra_info (_merge_extra_info a b).1 b).1 =
    (_merge_extra_info a b).1.
Proof.
  split.
  - destruct a as [a|], b as [b|], c as [c|]; try reflexivity.
    rewrite (merge_extra_info_union_with a b).
    rewrite (merge_extra_info_union_with b c).
    rewrite !merge_extra_info_union_with.
    rewrite union_with_union_assoc. reflexivity.
  - destruct a as [a|], b as [b|]; try reflexivity.
    + rewrite (merge_extra_info_union_with a b).
      rewrite merge_extra_info_union_with. f_equal.
      apply map_eq. intros k. rewrite !lookup_union_with.
      destruct (a !! k), (b !! k); simpl;
        rewrite <- ?(assoc_L (∪)), ?(idemp_L (∪)); reflexivity.
    + change ((_merge_extra_info (Some b) (Some b)).1 = Some b).
      rewrite merge_extra_info_union_with. f_equal.
      apply map_eq. intros k. rewrite !lookup_union_with.
      destruct (b !! k); simpl; [|reflexivity].
      rewrite (idemp_L (∪)). reflexivity.
Qed.

End GeneratorMerges.

Section GeneratorChecks.
Import results utils.

Lemma verify_mode_nil (modes : list string) :
  _verify_build_generator_mode (ModeSeq modes) = [] ↔
  Forall (fun m => m ∈ possible_modes) modes.
Proof.
  unfold _verify_build_generator_mode. simpl.
  induction modes as [|m modes IH]; simpl.
  - split; [constructor | reflexivity].
  - rewrite Forall_cons, <- IH.
    destruct (decide (m ∈ possible_modes)) as [Hin|Hout].
    + rewrite (bool_decide_eq_true_2 _ Hin). simpl. tauto.
    + rewrite (bool_decide_eq_false_2 _ Hout).
      split; [|tauto].
      destruct (bool_decide (m = "all")); discriminate.
Qed.

Lemma verify_list_or_none_nil name param :
  _verify_list_or_none_param name param = [] ↔ ∀ v, param ≠ PInvalid v.
Proof.
  destruct param as [|items|v]; simpl.
  - split; [discriminate | reflexivity].
  - split; [discriminate | reflexivity].
  - split; [discriminate|]. intros H. destruct (H v). reflexivity.
Qed.

(** When [check] reports nothing. *)
Lemma check_nil (self : Generator) :
  check self = [] ↔
  Forall (fun m => m ∈ possible_modes) (mode (generator self))
  ∧ (∀ s, subject self = Some s → has_newline s = false)
  ∧ (∀ v, tags self ≠ PInvalid v)
  ∧ (∀ v, builders self ≠ PInvalid v)
  ∧ (∀ v, schedulers self ≠ PInvalid v)
  ∧ (∀ v, branches self ≠ PInvalid v)
  ∧ (builders self = PNone ∨ tags self = PNone).
Proof.
  unfold check.
  pose proof (verify_mode_nil (mode (generator self))) as Hmodes.
  pose proof (verify_list_or_none_nil "tags" (tags self)) as Htags.
  pose proof (verify_list_or_none_nil "builders" (builders self))
    as Hbuilders.
  pose proof (verify_list_or_none_nil "schedulers" (schedulers self))
    as Hschedulers.
  pose proof (verify_list_or_none_nil "branches" (branches self))
    as Hbranches.
  assert (Hsubject :
    match subject self with
    | Some s => if has_newline s then [NewlinesInSubject] else []
    | None => []
    end = [] ↔ ∀ s, subject self = Some s → has_newline s = false).
  { destruct (subject self) as [s|]; [|split; [discriminate | reflexivity]].
    destruct (has_newline s) eqn:Hs.
    - split; [discriminate|]. intros H. specialize (H s eq_refl).
      congruence.
    - split; [|reflexivity]. intros _ s' [= <-]. exact Hs. }
  assert (Hboth :
    (if is_not_None (builders self) && is_not_None (tags self)
     then [BuildersAndTags] else []) = [] ↔
    builders self = PNone ∨ tags self = PNone).
  { destruct (builders self), (tags self); simpl;
      split; intros H; try discriminate H; auto;
      destruct H as [H|H]; discriminate H. }
  split.
  - intros Hnil.
    apply app_eq_nil in Hnil as [H1 Hnil].
    apply app_eq_nil in Hnil as [H2 Hnil].
    apply app_eq_nil in Hnil as [H3 Hnil].
    apply app_eq_nil in Hnil as [H4 Hnil].
    apply app_eq_nil in Hnil as [H5 Hnil].
    apply app_eq_nil in Hnil as [H6 H7].
    tauto.
  - intros (H1 & H2 & H3 & H4 & H5 & H6 & H7).
    apply Hmodes in H1. apply Hsubject in H2. apply Htags in H3.
    apply Hbuilders in H4. apply Hschedulers in H5.
    apply Hbranches in H6. apply Hboth in H7.
    rewrite H1, H2, H3, H4, H5, H6, H7. reflexivity.
Qed.

(** X9: [check] reports no configuration error exactly when every mode is
    one of the seven possible modes, the subject (if any) holds no newline,
    each of tags, builders, schedulers and branches is None or a list, and
    builders and tags are not both given.  In particular the mode "all" is
    refused inside a sequence, with its own error, although the string "all"
    is a valid mode argument. *)
Theorem check_accepts (self : Generator) :
  (check self = [] ↔
   Forall (fun m => m ∈ possible_modes) (mode (generator self))
   ∧ (∀ s, subject self = Some s → has_newline s = false)
   ∧ (∀ v, tags self ≠ PInvalid v)
   ∧ (∀ v, builders self ≠ PInvalid v)
   ∧ (∀ v, schedulers self ≠ PInvalid v)
   ∧ (∀ v, branches self ≠ PInvalid v)
   ∧ (builders self = PNone ∨ tags self = PNone))
  ∧ ("all" ∈ mode (generator self) → ModeAllInIterator ∈ check self)
  ∧ _verify_build_generator_mode
      (ModeSeq (mode (utils.__init__ (ModeStr "all")))) = [].
Proof.
  split; [|split].
  - apply check_nil.
  - intros Hall. unfold check. apply elem_of_app. left.
    unfold _verify_build_generator_mode. simpl.
    apply list_elem_of_In, in_flat_map. exists "all".
    split; [apply list_elem_of_In, Hall|]. simpl. left. reflexivity.
  - reflexivity.
Qed.





(** X11: the patches of a build are the patches of its sourcestamps that
    have one, in order: every patch returned is the ['patch'] of some
    sourcestamp and is not None, every such patch is returned, and with
    [add_patch] off nothing is returned. *)
Theorem get_patches_for_build_patches
    (self : Generator) (ss_list : list (gmap string PyValue))
    (patch : PyValue) :
  (add_patch self = false → _get_patches_for_build self ss_list = [])
  ∧ (add_patch self = true →
     (patch ∈ _get_patches_for_build self ss_list ↔
      (patch ≠ VNone
       ∧ ∃ ss, ss ∈ ss_list ∧ (ss !! "patch") = Some patch)))
  ∧ (VNone ∉ _get_patches_for_build self ss_list)
  ∧ (length (_get_patches_for_build self ss_list) ≤ length ss_list)%nat.
Proof.
  assert (Hpatch : ∀ ss p,
    patch_of ss = Some p ↔ p ≠ VNone ∧ ss !! "patch" = Some p).
  { intros ss p. unfold patch_of.
    destruct (ss !! "patch") as [[]|]; split;
      try discriminate; try (intros [= <-]; split; [discriminate|reflexivity]);
      try (intros [Hne [= <-]]; congruence);
      intros [_ H]; discriminate. }
  unfold _get_patches_for_build. split; [|split; [|split]].
  - intros ->. reflexivity.
  - intros ->. simpl. rewrite list_elem_of_omap. split.
    + intros (ss & Hin & Hp). apply Hpatch in Hp as [Hne Hp]. eauto.
    + intros (Hne & ss & Hin & Hp). exists ss. split; [exact Hin|].
      apply Hpatch. auto.
  - destruct (add_patch self); simpl; [|apply not_elem_of_nil].
    rewrite list_elem_of_omap. intros (ss & _ & Hp).
    apply Hpatch in Hp as [Hne _]. congruence.
  - destruct (add_patch self); simpl; [|lia].
    induction ss_list as [|ss rest IH]; csimpl; [lia|].
    destruct (patch_of ss); simpl; lia.
Qed.

Lemma get_patches_for_build_patches_witness :
  let self :=
    {| generator := {| mode := ["failing"] |};
       tags := PNone; builders := PNone; schedulers := PNone;
       branches := PNone; subject := None; add_patch := true |} in
  let ss_list : list (gmap string PyValue) :=
    [{[ "codebase" := VStr "a"; "patch" := VNone ]};
     {[ "codebase" := VStr "b" ]};
     {[ "codebase" := VStr "c"; "patch" := VStr "diff" ]}] in
  _get_patches_for_build self ss_list = [VStr "diff"]
  ∧ VStr "diff" ∈ _get_patches_for_build self ss_list.
Proof.
  intros self ss_list. split; [vm_compute; reflexivity|].
  destruct (get_patches_for_build_patches self ss_list (VStr "diff"))
    as (_ & Hin & _).
  apply Hin; [reflexivity|]. split; [discriminate|].
  eexists. split; [right; right; left|]. reflexivity.
Defined.

Lemma append_logs_filter ls all_logs :
  append_logs ls all_logs = all_logs ++ List.filter has_content ls.
Proof.
  revert all_logs. induction ls as [|l ls IH]; intros all_logs; simpl.
  - rewrite app_nil_r. reflexivity.
  - rewrite IH. destruct (has_content l); [|reflexivity].
    rewrite <- (assoc_L (++)). reflexivity.
Qed.

Lemma append_step_logs_flat_map steps all_logs :
  append_step_logs steps all_logs =
  all_logs
  ++ flat_map (fun step => List.filter has_content (default [] (logs step)))
       steps.
Proof.
  revert all_logs. induction steps as [|step steps IH]; intros all_logs; simpl.
  - rewrite app_nil_r. reflexivity.
  - rewrite IH. destruct (logs step) as [ls|]; simpl; [|reflexivity].
    rewrite append_logs_filter, <- (assoc_L (++)). reflexivity.
Qed.

(** X12: the logs of a build are the logs with content of its steps, step
    by step and in the order of each step: a log is returned exactly when it
    is a log with ['content'] of a step that has ['logs'], and a build
    without ['steps'] has none. *)
Theorem get_logs_for_build_logs_with_content
    (steps : option (list Step)) (l : gmap string PyValue) :
  _get_logs_for_build steps =
    flat_map (fun step => List.filter has_content (default [] (logs step)))
      (default [] steps)
  ∧ (l ∈ _get_logs_for_build steps ↔
     is_Some (l !! "content")
     ∧ ∃ all_steps step ls,
         steps = Some all_steps ∧ step ∈ all_steps
         ∧ logs step = Some ls ∧ l ∈ ls).
Proof.
  assert (Heq : _get_logs_for_build steps =
    flat_map (fun step => List.filter has_content (default [] (logs step)))
      (default [] steps)).
  { destruct steps as [all_steps|]; simpl; [|reflexivity].
    apply append_step_logs_flat_map. }
  split; [exact Heq|]. rewrite Heq.
  rewrite list_elem_of_In, in_flat_map. split.
  - intros (step & Hstep & Hl). apply filter_In in Hl as [Hl Hcontent].
    split.
    + unfold has_content in Hcontent.
      destruct (l !! "content"); [eauto | discriminate].
    + destruct steps as [all_steps|]; simpl in Hstep; [|contradiction].
      destruct (logs step) as [ls|] eqn:Hlogs; simpl in Hl; [|contradiction].
      exists all_steps, step, ls. rewrite !list_elem_of_In. auto.
  - intros ([x Hx] & all_steps & step & ls & -> & Hstep & Hlogs & Hl).
    exists step. simpl. split; [apply list_elem_of_In, Hstep|].
    rewrite Hlogs. simpl. apply filter_In.
    split; [apply list_elem_of_In, Hl|].
    unfold has_content. rewrite Hx. reflexivity.
Qed.

End GeneratorChecks.

(** ** Change filters: the other methods of filter.py *)

Section ChangeFilterMethods.
Import ssfilter filter.

(** A constructed filter holds the callables it was given. *)
Lemma init_fields `{Ssfilter} (a : Args) (cf : ChangeFilter) :
  __init__ a = Ok cf →
  filter_fn cf = arg_filter_fn a
  ∧ ∀ fld, field_fn fld cf = f_fn (field_args fld a).
Proof.
  unfold __init__.
  destruct (_create_filters (f_eq (project a)) _ _ _ "project");
    simpl; [|discriminate].
  destruct (_create_filters (f_eq (repository a)) _ _ _ "repository");
    simpl; [|discriminate].
  destruct (_create_branch_filters (f_eq (branch a)) _ _ _ "branch");
    simpl; [|discriminate].
  destruct (_create_filters (f_eq (category a)) _ _ _ "category");
    simpl; [|discriminate].
  destruct (_create_filters (f_eq (codebase a)) _ _ _ "codebase");
    simpl; [|discriminate].
  destruct (_create_property_filters _ _ _ _ "property");
    simpl; [|discriminate].
  intros [= <-]. split; [reflexivity|]. intros fld. destruct fld; reflexivity.
Qed.

(** X13: [fromSchedulerConstructorArgs] hands a given filter back
    unchanged, and only when neither a branch nor categories come with it:
    with a branch, or with categories that are not None (an empty list
    too), it raises RuntimeError.  Without a filter it returns None exactly
    when the branch is the sentinel and the categories are false (None or
    empty); otherwise it builds a filter from the branch and the categories,
    which holds no callable. *)
Theorem fromSchedulerConstructorArgs_cases
    `{Ssfilter} (branch_arg categories : PyValue) :
  (∀ cf,
     (fromSchedulerConstructorArgs (Some cf) branch_arg categories
        = Ok (Some cf)
      ↔ branch_arg = VNotABranch ∧ categories = VNone)
     ∧ (fromSchedulerConstructorArgs (Some cf) branch_arg categories
          = Ok (Some cf)
        ∨ ∃ msg, fromSchedulerConstructorArgs (Some cf) branch_arg categories
                   = Raise (RuntimeError msg)))
  ∧ (fromSchedulerConstructorArgs None branch_arg categories = Ok None
     ↔ branch_arg = VNotABranch ∧ truthy categories = false)
  ∧ (∀ cf,
       fromSchedulerConstructorArgs None branch_arg categories
         = Ok (Some cf) →
       __init__ (cfargs branch_arg categories) = Ok cf
       ∧ filter_fn cf = None
       ∧ ∀ fld, field_fn fld cf = None).
Proof.
  assert (Hbranch : is_a_branch branch_arg = false ↔ branch_arg = VNotABranch)
    by (destruct branch_arg; simpl; split; congruence).
  assert (Hgiven : is_given categories = false ↔ categories = VNone)
    by (destruct categories; simpl; split; congruence).
  split; [|split].
  - intros cf. unfold fromSchedulerConstructorArgs.
    destruct (is_a_branch branch_arg || is_given categories) eqn:Hor.
    + split; [|right; eauto].
      split; [discriminate|]. intros [Hb Hc].
      apply Hbranch in Hb. apply Hgiven in Hc. rewrite Hb, Hc in Hor.
      discriminate.
    + apply orb_false_iff in Hor as [Hb Hc].
      split; [|left; reflexivity]. split; [|reflexivity].
      intros _. split; [apply Hbranch, Hb | apply Hgiven, Hc].
  - unfold fromSchedulerConstructorArgs.
    destruct (is_a_branch branch_arg || truthy categories) eqn:Hor.
    + split.
      * destruct (__init__ _); simpl; discriminate.
      * intros [Hb Hc]. apply Hbranch in Hb. rewrite Hb, Hc in Hor.
        discriminate.
    + apply orb_false_iff in Hor as [Hb Hc].
      split; [|reflexivity]. intros _. split; [apply Hbranch, Hb | exact Hc].
  - intros cf. unfold fromSchedulerConstructorArgs.
    destruct (is_a_branch branch_arg || truthy categories); [|discriminate].
    destruct (__init__ (cfargs branch_arg categories)) as [built|e] eqn:Hinit;
      simpl; [|discriminate].
    intros [= <-]. split; [reflexivity|].
    pose proof (init_fields (cfargs branch_arg categories) built Hinit)
      as [Hfn Hfields].
    split; [exact Hfn|]. intros fld. rewrite Hfields. destruct fld; reflexivity.
Qed.

Lemma fromSchedulerConstructorArgs_cases_witness :
  ∃ cf,
    @fromSchedulerConstructorArgs filter_examples.literal_ssfilter
      None (VStr "master") (VList []) = Ok (Some cf)
    ∧ filter_fn cf = None
    ∧ (∀ fld, field_fn fld cf = None)
    ∧ filter_change cf filter_examples.gerrit_change = Ok true.
Proof.
  eexists.
  match goal with
  | |- ?call = Ok (Some ?c) ∧ _ =>
      assert (Hcall : call = Ok (Some c)) by reflexivity
  end.
  destruct (@fromSchedulerConstructorArgs_cases
              filter_examples.literal_ssfilter (VStr "master") (VList []))
    as (_ & _ & Hbuilt).
  destruct (Hbuilt _ Hcall) as (_ & Hfn & Hfields).
  split; [exact Hcall|]. split; [exact Hfn|]. split; [exact Hfields|].
  vm_compute. reflexivity.
Defined.

Lemma all_matched_true get fs :
  all_matched get fs = Ok true ↔
  Forall (fun f => is_matched f (get (prop f)) = Ok true) fs.
Proof.
  induction fs as [|f fs IH]; simpl.
  - split; [constructor | reflexivity].
  - rewrite Forall_cons, <- IH.
    destruct (is_matched f (get (prop f))) as [[|]|e]; simpl;
      intuition discriminate.
Qed.

Lemma all_matched_agree get get' fs :
  (∀ f, f ∈ fs → get (prop f) = get' (prop f)) →
  all_matched get fs = all_matched get' fs.
Proof.
  induction fs as [|f fs IH]; intros Hagree; simpl; [reflexivity|].
  rewrite (Hagree f) by left. rewrite IH; [reflexivity|].
  intros g Hg. apply Hagree. right. exact Hg.
Qed.


Lemma filter_change_accepts self change :
  filter_change self change = Ok true ↔
  rejects (filter_fn self) (Ok change) = Ok false
  ∧ rejects (project_fn self) (attr change "project") = Ok false
  ∧ rejects (codebase_fn self) (attr change "codebase") = Ok false
  ∧ rejects (repository_fn self) (attr change "repository") = Ok false
  ∧ rejects (category_fn self) (attr change "category") = Ok false
  ∧ rejects (branch_fn self) (attr change "branch") = Ok false
  ∧ all_matched (fun p => getattr change p (VStr "")) (filters self)
    = Ok true
  ∧ all_matched (fun p => getProperty (properties change) p (VStr ""))
      (property_filters self) = Ok true.
Proof.
  unfold filter_change.
  destruct (rejects (filter_fn self) (Ok change)) as [[|]|];
    simpl; [intuition discriminate| |intuition discriminate].
  destruct (rejects (project_fn self) _) as [[|]|];
    simpl; [intuition discriminate| |intuition discriminate].
  destruct (rejects (codebase_fn self) _) as [[|]|];
    simpl; [intuition discriminate| |intuition discriminate].
  destruct (rejects (repository_fn self) _) as [[|]|];
    simpl; [intuition discriminate| |intuition discriminate].
  destruct (rejects (category_fn self) _) as [[|]|];
    simpl; [intuition discriminate| |intuition discriminate].
  destruct (rejects (branch_fn self) _) as [[|]|];
    simpl; [intuition discriminate| |intuition discriminate].
  destruct (all_matched _ (filters self)) as [[|]|];
    simpl; [|intuition discriminate|intuition discriminate].
  destruct (all_matched _ (property_filters self)) as [[|]|];
    simpl; intuition discriminate.
Qed.



(** X15: acceptance does not depend on the order in which the filter
    objects are listed: two filters with the same callables whose field
    filters, and whose property filters, are the same up to order accept the
    same changes. *)
Theorem filter_change_order_of_filters
    (self other : ChangeFilter) (change : Change) :
  filter_fn self = filter_fn other →
  (∀ fld, field_fn fld self = field_fn fld other) →
  filters self ≡ₚ filters other →
  property_filters self ≡ₚ property_filters other →
  (filter_change self change = Ok true ↔
   filter_change other change = Ok true).
Proof.
  intros Hfilter Hfields Hperm Hpperm.
  rewrite !filter_change_accepts, !all_matched_true.
  pose proof (Hfields Project) as H1. pose proof (Hfields Codebase) as H2.
  pose proof (Hfields Repository) as H3.
  pose proof (Hfields Category) as H4. pose proof (Hfields Branch) as H5.
  simpl in H1, H2, H3, H4, H5.
  rewrite Hfilter, H1, H2, H3, H4, H5, Hperm, Hpperm. reflexivity.
Qed.

Lemma filter_change_order_of_filters_witness :
  let by_branch := ssfilter_model.exact_match "branch" [Some "master"] in
  let by_category :=
    ssfilter_model.exact_match "category" [Some "ref-updated"] in
  let cf fs :=
    {| filter_fn := None; filters := fs; property_filters := [];
       project_fn := None; repository_fn := None; branch_fn := None;
       category_fn := None; codebase_fn := None |} in
  filter_change (cf [by_branch; by_category]) filter_examples.gerrit_change
    = Ok true
  ∧ filter_change (cf [by_category; by_branch]) filter_examples.gerrit_change
    = Ok true.
Proof.
  intros by_branch by_category cf.
  assert (Hfirst : filter_change (cf [by_branch; by_category])
                     filter_examples.gerrit_change = Ok true)
    by (vm_compute; reflexivity).
  split; [exact Hfirst|].
  apply (filter_change_order_of_filters (cf [by_branch; by_category])
           (cf [by_category; by_branch]) filter_examples.gerrit_change).
  - reflexivity.
  - intros fld. destruct fld; reflexivity.
  - apply Permutation_swap.
  - reflexivity.
  - exact Hfirst.
Defined.

Lemma attr_agree c1 c2 name :
  attrs c1 !! name = attrs c2 !! name → attr c1 name = attr c2 name.
Proof. unfold attr. intros ->. reflexivity. Qed.

(** X16: a filter without a filter function looks only at what its
    sub-filters name: two changes that agree on the attributes given to the
    configured field functions, on the attributes (absent ones read as
    the empty string) of the field filters and on the properties
    of the property filters get the same answer, exceptions included. *)
Theorem filter_change_looks_at_named_fields_only
    (self : ChangeFilter) (c1 c2 : Change) :
  filter_fn self = None →
  (∀ fld, is_Some (field_fn fld self) →
     attrs c1 !! field_name fld = attrs c2 !! field_name fld) →
  (∀ f, f ∈ filters self →
     getattr c1 (prop f) (VStr "") = getattr c2 (prop f) (VStr "")) →
  (∀ f, f ∈ property_filters self →
     getProperty (properties c1) (prop f) (VStr "") =
     getProperty (properties c2) (prop f) (VStr "")) →
  filter_change self c1 = filter_change self c2.
Proof.
  intros Hfilter Hfields Hattrs Hprops.
  assert (Hrejects : ∀ fld,
    rejects (field_fn fld self) (attr c1 (field_name fld)) =
    rejects (field_fn fld self) (attr c2 (field_name fld))).
  { intros fld. destruct (field_fn fld self) as [f|] eqn:Hfn; [|reflexivity].
    rewrite (attr_agree c1 c2 (field_name fld)); [reflexivity|].
    apply Hfields. rewrite Hfn. eauto. }
  unfold filter_change. rewrite Hfilter. simpl rejects at 1.
  simpl rejects at 6.
  pose proof (Hrejects Project) as H1. pose proof (Hrejects Codebase) as H2.
  pose proof (Hrejects Repository) as H3.
  pose proof (Hrejects Category) as H4. pose proof (Hrejects Branch) as H5.
  simpl in H1, H2, H3, H4, H5. rewrite H1, H2, H3, H4, H5.
  rewrite (all_matched_agree _ (fun p => getattr c2 p (VStr ""))
             (filters self) Hattrs).
  rewrite (all_matched_agree _
             (fun p => getProperty (properties c2) p (VStr ""))
             (property_filters self) Hprops).
  reflexivity.
Qed.

Lemma filter_change_looks_at_named_fields_only_witness :
  let self := filter_examples.branch_filter "master"
                (Some filter_examples.accept) in
  filter_change self filter_examples.bare_change =
  filter_change self filter_examples.gerrit_change.
Proof.
  intros self.
  apply filter_change_looks_at_named_fields_only.
  - reflexivity.
  - intros fld [f Hf]. destruct fld; try discriminate Hf. reflexivity.
  - intros f Hin. simpl in Hin.
    apply list_elem_of_singleton in Hin as ->. reflexivity.
  - intros f Hin. simpl in Hin. apply not_elem_of_nil in Hin. contradiction.
Defined.

Section ReprOfSubFilters.
Variable name_of_filter_fn : Callable Change → string.
Variable name_of_fn : Callable PyValue → string.
Variable describe : Filter → string.

Lemma repr_of_filter_objects (label : nat → SubFilter)
    (outcome : Filter → Result bool) (P : string → SubFilter * Result bool → Prop)
    (fs : list Filter) :
  (∀ i f, fs !! i = Some f → P (describe f) (label i, outcome f)) →
  Forall2 P (map describe fs) (imap (fun i f => (label i, outcome f)) fs).
Proof.
  intros HP. apply Forall2_same_length_lookup. split.
  - rewrite length_map, length_imap. reflexivity.
  - intros i text o Htext Ho.
    rewrite list_lookup_fmap in Htext. rewrite list_lookup_imap in Ho.
    destruct (fs !! i) as [f|] eqn:Hf; simpl in *; [|discriminate].
    injection Htext as <-. injection Ho as <-. apply HP, Hf.
Qed.

(** X17: the repr of a filter lists its sub-filters as [filter_change]
    evaluates them: entry by entry, in the same order, it names the
    callable of the sub-filter with the field it is given, or gives the
    description of its filter object, and nothing that is configured is
    left out. *)
Theorem repr_lists_the_sub_filters (self : ChangeFilter) (change : Change) :
  Forall2 (describes name_of_filter_fn name_of_fn describe self)
    (_get_repr_filters name_of_filter_fn name_of_fn describe self)
    (sub_filters self change).
Proof.
  unfold _get_repr_filters, sub_filters.
  assert (Hfn : ∀ fld,
    Forall2 (describes name_of_filter_fn name_of_fn describe self)
      (repr_fn name_of_fn (field_fn fld self) (field_name fld))
      (fn_outcome (ByFieldFn fld) (field_fn fld self)
         (attr change (field_name fld)))).
  { intros fld. destruct (field_fn fld self) as [f|] eqn:Hf; simpl;
      [|constructor].
    constructor; [|constructor]. unfold describes. simpl. eauto. }
  repeat apply Forall2_app.
  - destruct (filter_fn self) as [f|] eqn:Hf; simpl; [|constructor].
    constructor; [|constructor]. unfold describes. simpl. eauto.
  - apply (Hfn Project).
  - apply (Hfn Codebase).
  - apply (Hfn Repository).
  - apply (Hfn Category).
  - apply (Hfn Branch).
  - apply (repr_of_filter_objects ByFieldFilter
             (fun f => is_matched f (getattr change (prop f) (VStr "")))).
    intros i f Hf. unfold describes. simpl. eauto.
  - apply (repr_of_filter_objects ByPropertyFilter
             (fun f => is_matched f
                         (getProperty (properties change) (prop f)
                            (VStr "")))).
    intros i f Hf. unfold describes. simpl. eauto.
Qed.

End ReprOfSubFilters.

End ChangeFilterMethods.

(** ** Message formatting: the status text of message.py *)

Section StatusText.
Import results utils message.
Variable statusToString : Z → string.

Lemma other_status_is_not_new_failure (s : string) :
  s +:+ " build" ≠ "new failure".
Proof.
  intros Heq.
  repeat (destruct s as [|? s]; simpl in Heq; try discriminate Heq;
          injection Heq as _ Heq).
Qed.

Lemma new_failure_text (mode : list string) (results : Z)
    (previous : option Z) :
  get_detected_status_text statusToString mode results previous
    = "new failure"
  ↔ results = FAILURE
    ∧ ("change" ∈ mode ∨ "problem" ∈ mode)
    ∧ ∃ p, previous = Some p ∧ p ≠ FAILURE.
Proof.
  unfold get_detected_status_text.
  destruct (Z.eqb_spec results FAILURE) as [->|Hf].
  - assert (Hcond :
      (bool_decide ("change" ∈ mode) || bool_decide ("problem" ∈ mode))
      && differs_from previous FAILURE = true ↔
      ("change" ∈ mode ∨ "problem" ∈ mode)
      ∧ ∃ p, previous = Some p ∧ p ≠ FAILURE).
    { rewrite andb_true_iff, orb_true_iff, !bool_decide_eq_true.
      unfold differs_from. destruct previous as [p|].
      - rewrite negb_true_iff, Z.eqb_neq. split.
        + intros [Hm Hp]. split; [exact Hm|]. eauto.
        + intros (Hm & q & [= <-] & Hq). auto.
      - split; [intros [_ H]; discriminate|].
        intros (_ & q & Hq & _). discriminate. }
    destruct ((bool_decide ("change" ∈ mode)
               || bool_decide ("problem" ∈ mode))
              && differs_from previous FAILURE).
    + split; [|reflexivity]. intros _. split; [reflexivity|].
      apply Hcond. reflexivity.
    + split; [discriminate|]. intros [_ H]. apply Hcond in H. discriminate.
  - destruct (results =? WARNINGS);
      [split; [discriminate | intros [H _]; contradiction]|].
    destruct (results =? SUCCESS).
    + destruct (bool_decide ("change" ∈ mode) && _);
        (split; [discriminate | intros [H _]; contradiction]).
    + destruct (results =? EXCEPTION);
        [split; [discriminate | intros [H _]; contradiction]|].
      split; [|intros [H _]; contradiction].
      intros H. apply other_status_is_not_new_failure in H. contradiction.
Qed.

(** X18: the status text is "new failure" exactly when the build failed,
    the mode "change" or the mode "problem" is configured, and there is a
    previous result that is not FAILURE; a failed build without a previous
    result is a "failed build" in every mode.  This holds whatever names
    [statusToString] gives to the results. *)
Theorem detected_status_new_failure
    (mode : list string) (results : Z) (previous : option Z) :
  (get_detected_status_text statusToString mode results previous
     = "new failure"
   ↔ results = FAILURE
     ∧ ("change" ∈ mode ∨ "problem" ∈ mode)
     ∧ ∃ p, previous = Some p ∧ p ≠ FAILURE)
  ∧ get_detected_status_text statusToString mode FAILURE None
    = "failed build".
Proof.
  split; [apply new_failure_text|].
  unfold get_detected_status_text. simpl.
  rewrite andb_false_r. reflexivity.
Qed.


End StatusText.


Section SourceStampText.
Import message.

Lemma source_stamp_text_from (text : string) (source_stamps : list StampInfo) :
  foldl (fun text ss => text +:+ source_stamp_line ss) text source_stamps =
  text +:+ get_message_source_stamp_text source_stamps.
Proof.
  unfold get_message_source_stamp_text.
  revert text. induction source_stamps as [|ss rest IH]; intros text.
  - simpl. induction text as [|x text IHt]; [reflexivity|].
    change (String x text = String x (text +:+ "")). f_equal. exact IHt.
  - cbn [foldl]. rewrite (IH (text +:+ source_stamp_line ss)).
    rewrite (IH ("" +:+ source_stamp_line ss)).
    change ("" +:+ source_stamp_line ss) with (source_stamp_line ss).
    apply append_assoc.
Qed.

(** X20: the source stamp text is made of one line per source stamp, in
    order: the text of two lists one after the other is the text of the
    first followed by the text of the second, the text of one stamp is its
    line, and the text is empty only for no source stamp at all. *)
Theorem source_stamp_text_line_per_stamp
    (first second : list StampInfo) (ss : StampInfo) :
  get_message_source_stamp_text (first ++ second) =
    get_message_source_stamp_text first
    +:+ get_message_source_stamp_text second
  ∧ get_message_source_stamp_text [ss] = source_stamp_line ss
  ∧ (get_message_source_stamp_text first = "" ↔ first = []).
Proof.
  split; [|split].
  - unfold get_message_source_stamp_text at 1. rewrite foldl_app.
    fold (get_message_source_stamp_text first).
    apply source_stamp_text_from.
  - reflexivity.
  - split; [|intros ->; reflexivity].
    destruct first as [|s rest]; [reflexivity|].
    unfold get_message_source_stamp_text. cbn [foldl].
    rewrite source_stamp_text_from. discriminate.
Qed.

End SourceStampText.
